(** * claude_hook_v3: event matching and audio delivery

    A shallow embedding of [claude_hook_v3.py]: the pattern table and
    [EventMatcher.find_match], the sound and voice player registries of
    [AudioManager], [play_sound] / [speak_text], [HookHandler.handle_event]
    and the exit-code logic of [main].

    Python text is a sequence of Unicode code points, values read from
    JSON are a tagged union, dictionaries are finite maps, raised
    exceptions are an explicit [Raise] result, and everything the process
    does to its surroundings is recorded as a trace of [io] events. *)

From stdpp Require Import base option list gmap.
From Stdlib Require Import NArith ZArith QArith String Ascii Lia.

Local Open Scope N_scope.
Local Open Scope list_scope.

(** ** Python strings *)

Module PyStr.

(** A [str] is a list of code points. *)
Definition pystr := list N.

(** Decoding of a UTF-8 byte sequence, so that literals can be written
    as in the source file. *)
Fixpoint utf8_decode (bs : list N) : pystr :=
  match bs with
  | [] => []
  | b0 :: r0 =>
    if b0 <? 0x80 then b0 :: utf8_decode r0
    else if b0 <? 0xE0 then
      match r0 with
      | b1 :: r1 => ((b0 - 0xC0) * 64 + (b1 - 0x80)) :: utf8_decode r1
      | [] => [b0]
      end
    else if b0 <? 0xF0 then
      match r0 with
      | b1 :: b2 :: r2 =>
        ((b0 - 0xE0) * 4096 + (b1 - 0x80) * 64 + (b2 - 0x80)) :: utf8_decode r2
      | _ => b0 :: r0
      end
    else
      match r0 with
      | b1 :: b2 :: b3 :: r3 =>
        ((b0 - 0xF0) * 262144 + (b1 - 0x80) * 4096 + (b2 - 0x80) * 64
         + (b3 - 0x80)) :: utf8_decode r3
      | _ => b0 :: r0
      end
  end.

Definition py (s : string) : pystr :=
  utf8_decode (List.map N_of_ascii (list_ascii_of_string s)).

Arguments py s%_string.

Definition eqb (a b : pystr) : bool := bool_decide (a = b).

Fixpoint starts_with (pre s : pystr) : bool :=
  match pre, s with
  | [], _ => true
  | _ :: _, [] => false
  | a :: pre', b :: s' => (a =? b) && starts_with pre' s'
  end.

(** [needle in hay]: substring search. *)
Fixpoint contains (needle hay : pystr) : bool :=
  starts_with needle hay ||
  match hay with
  | [] => false
  | _ :: hay' => contains needle hay'
  end.

(** Truth value of a string: only the empty string is false. *)
Definition nonempty (s : pystr) : bool :=
  match s with [] => false | _ :: _ => true end.

End PyStr.
Export PyStr.

(** ** The fragment of [re] used by the pattern table *)

Module Re.

(** Regular expressions over code points.  [Bol] is [^], [Lit] a
    literal character (compared case-insensitively), [Dot] is [.],
    [Space] is [\s]. [Void] matches nothing and only arises from
    derivatives. *)
Inductive regex :=
| Void
| Eps
| Bol
| Lit (c : N)
| Dot
| Space
| Cat (r1 r2 : regex)
| Alt (r1 r2 : regex)
| Star (r : regex).

Definition Plus (r : regex) : regex := Cat r (Star r).

Definition is_ascii_upper (c : N) : bool := (65 <=? c) && (c <=? 90).
Definition is_ascii_lower (c : N) : bool := (97 <=? c) && (c <=? 122).

(** Lower-casing as far as a comparison with an ASCII letter can see it:
    besides [A-Z], the code points U+0130 and U+212A lower-case to the
    ASCII letters [i] and [k]. *)
Definition lower_to_ascii (c : N) : N :=
  if is_ascii_upper c then c + 32
  else if c =? 0x130 then 0x69
  else if c =? 0x212A then 0x6B
  else c.

(** A pattern literal [p] against a text character [c] under
    [re.IGNORECASE].  The table holds ASCII literals only: a letter
    matches every character that lower-cases to it, and [i] and [s] also
    match U+0131 and U+017F; any other literal matches itself. *)
Definition lit_match (p c : N) : bool :=
  if is_ascii_upper p || is_ascii_lower p then
    let lo := lower_to_ascii p in
    (lower_to_ascii c =? lo)
    || ((lo =? 0x69) && (c =? 0x131))
    || ((lo =? 0x73) && (c =? 0x17F))
  else c =? p.

(** [\s] on text: Unicode white space. *)
Definition is_space (c : N) : bool :=
  ((9 <=? c) && (c <=? 13)) || ((28 <=? c) && (c <=? 32))
  || (c =? 0x85) || (c =? 0xA0) || (c =? 0x1680)
  || ((0x2000 <=? c) && (c <=? 0x200A))
  || (c =? 0x2028) || (c =? 0x2029) || (c =? 0x202F) || (c =? 0x205F)
  || (c =? 0x3000).

(** [.] without [re.DOTALL]: anything but a line feed. *)
Definition dot_match (c : N) : bool := negb (c =? 10).

(** [nullable bol r]: [r] matches the empty string; [bol] tells whether
    the current position is the start of the text. *)
Fixpoint nullable (bol : bool) (r : regex) : bool :=
  match r with
  | Void => false
  | Eps => true
  | Bol => bol
  | Lit _ | Dot | Space => false
  | Cat r1 r2 => nullable bol r1 && nullable bol r2
  | Alt r1 r2 => nullable bol r1 || nullable bol r2
  | Star _ => true
  end.

(** Derivative of [r] by the character [c] read at a position that is
    the start of the text iff [bol]; the result is to be used at a later
    position. *)
Fixpoint deriv (bol : bool) (c : N) (r : regex) : regex :=
  match r with
  | Void | Eps | Bol => Void
  | Lit p => if lit_match p c then Eps else Void
  | Dot => if dot_match c then Eps else Void
  | Space => if is_space c then Eps else Void
  | Cat r1 r2 =>
    if nullable bol r1
    then Alt (Cat (deriv bol c r1) r2) (deriv bol c r2)
    else Cat (deriv bol c r1) r2
  | Alt r1 r2 => Alt (deriv bol c r1) (deriv bol c r2)
  | Star r1 => Cat (deriv bol c r1) (Star r1)
  end.

(** Some prefix of [s] matches [r]. *)
Fixpoint match_from (s : pystr) (bol : bool) (r : regex) : bool :=
  nullable bol r ||
  match s with
  | [] => false
  | c :: s' => match_from s' false (deriv bol c r)
  end.

(** [bool(re.match(r, s, re.IGNORECASE))]: a match anchored at the
    start of [s], not required to reach its end. *)
Definition re_match (r : regex) (s : pystr) : bool := match_from s true r.

(** *** Reading a pattern

    The syntax the table uses: branches separated by [|], each a sequence
    of [^], [.], [\s] and literal characters, a one-character piece
    possibly followed by [*] or [+]. *)

Definition is_meta (c : N) : bool :=
  existsb (N.eqb c) (py "?()[]{}$").

(** What [*] and [+] may follow. *)
Definition repeatable (r : regex) : bool :=
  match r with
  | Lit _ | Dot | Space => true
  | _ => false
  end.

(** Concatenation of the pieces of a branch, left to right. *)
Fixpoint seq (rs : list regex) : regex :=
  match rs with
  | [] => Eps
  | [r] => r
  | r :: rs' => Cat r (seq rs')
  end.

Fixpoint alts (rs : list regex) : regex :=
  match rs with
  | [] => Void
  | [r] => r
  | r :: rs' => Alt r (alts rs')
  end.

(** [items] are the pieces of the current branch and [branches] the
    branches already closed, both latest first. *)
Fixpoint parse_from (s : pystr) (items branches : list regex)
  : option regex :=
  match s with
  | [] => Some (alts (rev (seq (rev items) :: branches)))
  | c :: s' =>
    if c =? 124 (* | *) then parse_from s' [] (seq (rev items) :: branches)
    else if c =? 94 (* ^ *) then parse_from s' (Bol :: items) branches
    else if c =? 46 (* . *) then parse_from s' (Dot :: items) branches
    else if c =? 42 (* * *) then
      match items with
      | a :: items' =>
        if repeatable a then parse_from s' (Star a :: items') branches
        else None
      | [] => None
      end
    else if c =? 43 (* + *) then
      match items with
      | a :: items' =>
        if repeatable a then parse_from s' (Plus a :: items') branches
        else None
      | [] => None
      end
    else if c =? 92 (* \ *) then
      match s' with
      | c' :: s'' =>
        if c' =? 115 (* s *) then parse_from s'' (Space :: items) branches
        else None
      | [] => None
      end
    else if is_meta c then None
    else parse_from s' (Lit c :: items) branches
  end.

Definition parse (s : pystr) : option regex := parse_from s [] [].

(** The compiled form of a pattern; a pattern outside the fragment,
    which the table has none of, compiles to [Void]. *)
Definition compile (s : pystr) : regex :=
  match parse s with
  | Some r => r
  | None => Void
  end.

(** *** What a pattern means

    [accepts bol r s]: the pattern [r] matches exactly the text [s],
    read from a position that is the start of the whole text iff [bol].
    An iteration of [Star] consumes at least one character. *)
Inductive accepts : bool -> regex -> pystr -> Prop :=
| acc_eps bol : accepts bol Eps []
| acc_bol : accepts true Bol []
| acc_lit bol p c : lit_match p c = true -> accepts bol (Lit p) [c]
| acc_dot bol c : dot_match c = true -> accepts bol Dot [c]
| acc_space bol c : is_space c = true -> accepts bol Space [c]
| acc_cat bol r1 r2 s1 s2 :
    accepts bol r1 s1 ->
    accepts (bol && negb (nonempty s1)) r2 s2 ->
    accepts bol (Cat r1 r2) (s1 ++ s2)
| acc_alt_l bol r1 r2 s : accepts bol r1 s -> accepts bol (Alt r1 r2) s
| acc_alt_r bol r1 r2 s : accepts bol r2 s -> accepts bol (Alt r1 r2) s
| acc_star_nil bol r : accepts bol (Star r) []
| acc_star_more bol r c s1 s2 :
    accepts bol r (c :: s1) ->
    accepts false (Star r) s2 ->
    accepts bol (Star r) (c :: s1 ++ s2).

(** Some prefix of [s] is matched by [r] from the start of [s]. *)
Definition matches_prefix (r : regex) (s : pystr) : Prop :=
  exists pre suf, s = pre ++ suf /\ accepts true r pre.

End Re.
Export Re.

(** ** Values and exceptions *)

(** What [json.load] produces. *)
#[warnings="-register-all"]
Inductive json :=
| JNull
| JBool (b : bool)
| JInt (z : Z)
| JFloat (q : Q)
| JStr (s : pystr)
| JArr (l : list json)
| JObj (m : gmap pystr json).

(** The exception classes that occur. [KeyboardInterrupt] and
    [SystemExit] do not derive from [Exception]; the others do
    ([JSONDecodeError] through [ValueError]). *)
Inductive exn :=
| AttributeError
| TypeError
| JSONDecodeError
| UnicodeDecodeError
| RecursionError
| OSError
| KeyboardInterrupt
| SystemExit (code : Z).

Inductive result (A : Type) :=
| Ok (a : A)
| Raise (e : exn).
Arguments Ok {A} a.
Arguments Raise {A} e.

Definition bind {A B} (m : result A) (k : A -> result B) : result B :=
  match m with
  | Ok a => k a
  | Raise e => Raise e
  end.

Notation "'let*' x ':=' m 'in' k" := (bind m (fun x => k))
  (at level 10, x name, m at level 100, k at level 200).

(** [d.get(key, default)]: only a dict has the method. *)
Definition py_get (d : json) (key : pystr) (dflt : json) : result json :=
  match d with
  | JObj m => Ok (match m !! key with Some v => v | None => dflt end)
  | _ => Raise AttributeError
  end.

(** [x == s] for a string [s]: a value of another type is unequal. *)
Definition eq_str (x : json) (s : pystr) : bool :=
  match x with
  | JStr t => PyStr.eqb t s
  | _ => false
  end.

(** ** The pattern table *)

Record Pattern := mkPattern {
  regex : pystr;
  sound : pystr;
  voice_key : pystr;
  priority : Z;
  description : pystr
}.

(** [Pattern.matches]: [re.match] raises [TypeError] on anything that
    is not text. *)
Definition matches (p : Pattern) (text : json) : result bool :=
  match text with
  | JStr s => Ok (re_match (compile (regex p)) s)
  | _ => Raise TypeError
  end.

Module Table.

(** [Pattern(regex, sound, voice_key, priority, description)] *)
Definition rule (regex snd key : string) (prio : Z) (desc : string)
  : Pattern :=
  mkPattern (py regex) (py snd) (py key) prio (py desc).
Arguments rule (regex snd key)%_string prio%_Z desc%_string.

Definition system_events : list Pattern :=
  [ rule "Notification" "ready" "Notification" 100 "Claude is ready";
    rule "Stop" "complete" "Stop" 100 "Task completed";
    rule "SubagentStop" "complete" "SubagentStop" 100 "Subtask completed";
    rule "UserPromptSubmit" "prompt" "UserPromptSubmit" 100 "User prompt" ].

Definition tools : list Pattern :=
  [ rule "Edit" "edit" "Edit" 90 "File editing";
    rule "MultiEdit" "edit" "MultiEdit" 90 "Multiple edits";
    rule "Write" "write" "Write" 90 "File creation";
    rule "NotebookEdit" "edit" "NotebookEdit" 90 "Notebook editing";
    rule "TodoWrite" "list" "TodoWrite" 80 "Todo list update";
    rule "Read" "read" "Read" 70 "File reading";
    rule "Grep" "search" "Grep" 70 "Text search";
    rule "Task" "task" "Task" 70 "Task execution";
    rule "LS" "list" "LS" 70 "Directory listing";
    rule "Glob" "search" "Glob" 70 "File pattern search";
    rule "exit_plan_mode" "complete" "exit_plan_mode" 70 "Exit plan mode";
    rule "WebFetch" "web" "WebFetch" 70 "Web fetch";
    rule "WebSearch" "search" "WebSearch" 70 "Web search" ].

(** The last rule of the shell-command category is the catch-all. *)
Definition catch_all : Pattern :=
  rule ".*" "bash" "Bash" 0 "Generic bash command".

Definition bash_commands : list Pattern :=
  [ rule "^git\s+commit" "commit" "git_commit" 95 "Git commit";
    rule "^git\s+push" "push" "git_push" 95 "Git push";
    rule "^git\s+pull" "pull" "git_pull" 95 "Git pull";
    rule "^gh\s+pr" "pr" "gh_pr" 95 "GitHub PR";
    rule "^npm\s+test|^yarn\s+test" "test" "test" 90 "JavaScript tests";
    rule "^pytest|^python.*test" "test" "test" 90 "Python tests";
    rule "^go\s+test" "test" "test" 90 "Go tests";
    rule "^cargo\s+test" "test" "test" 90 "Rust tests";
    rule "^make" "build" "build" 85 "Make build";
    rule "^docker" "docker" "docker" 85 "Docker command";
    rule "^npm" "npm" "npm" 85 "NPM command";
    rule "^python" "python" "python" 85 "Python command";
    catch_all ].

End Table.

(** ** EventMatcher *)

Module EventMatcher.

Definition directive : Type := option pystr * option pystr.

Definition pair_of (p : Pattern) : directive :=
  (Some (sound p), Some (voice_key p)).

(** A [for] loop that returns at the first rule matching [text]. *)
Fixpoint first_match (ps : list Pattern) (text : json)
  : result (option Pattern) :=
  match ps with
  | [] => Ok None
  | p :: ps' =>
    let* m := matches p text in
    if m then Ok (Some p) else first_match ps' text
  end.

(** The loop that appends every rule matching [text], in table order. *)
Fixpoint collect (ps : list Pattern) (text : json) : result (list Pattern) :=
  match ps with
  | [] => Ok []
  | p :: ps' =>
    let* m := matches p text in
    let* rest := collect ps' text in
    Ok (if m then p :: rest else rest)
  end.

(** [max(best :: l, key=...)]: the running maximum is replaced only by a
    strictly larger key, so the first maximal element is returned. *)
Fixpoint max_from (best : Pattern) (l : list Pattern) : Pattern :=
  match l with
  | [] => best
  | p :: l' =>
    if (priority best <? priority p)%Z then max_from p l' else max_from best l'
  end.

(** [event_data.get("tool_input", {}).get("command", "")] *)
Definition command_of (event_data : json) : result json :=
  let* tool_input := py_get event_data (py "tool_input") (JObj ∅) in
  py_get tool_input (py "command") (JStr (py "")).

Definition find_match (event_data : json) : result directive :=
  let* event_name := py_get event_data (py "hook_event_name") (JStr (py "")) in
  let* tool_name := py_get event_data (py "tool_name") (JStr (py "")) in
  let* sys := first_match Table.system_events event_name in
  match sys with
  | Some p => Ok (pair_of p)
  | None =>
    let* tl := first_match Table.tools tool_name in
    match tl with
    | Some p => Ok (pair_of p)
    | None =>
      if eq_str tool_name (py "Bash") && eq_str event_name (py "PreToolUse")
      then
        let* command := command_of event_data in
        let* ms := collect Table.bash_commands command in
        match ms with
        | [] => Ok (None, None)
        | m :: ms' => Ok (pair_of (max_from m ms'))
        end
      else Ok (None, None)
    end
  end.

End EventMatcher.
Export EventMatcher.

(** ** Configuration *)

Record SoundConfig := mkSoundConfig {
  volume : Q;
  fallback_enabled : bool;
  cache_sounds : bool;
  max_duration : Q
}.

Record VoiceConfig := mkVoiceConfig {
  language : pystr;
  voice_name : pystr;
  rate : Z;
  voice_volume : Q;
  async_speak : bool
}.

Record LogConfig := mkLogConfig {
  level_name : pystr;
  file_path : option pystr;
  format : pystr;
  rotate_size : Z
}.

Record HookConfig := mkHookConfig {
  sounds_dir : pystr;
  sound_type : pystr;
  mode : pystr;
  sound_config : SoundConfig;
  voice_config : VoiceConfig;
  log_config : LogConfig;
  debug_mode : bool;
  test_mode : bool
}.

Definition default_SoundConfig : SoundConfig :=
  mkSoundConfig 1 true true 5.

Definition default_VoiceConfig (name : pystr) : VoiceConfig :=
  mkVoiceConfig (py "ja_JP") name 200 1 true.

Definition default_LogConfig : LogConfig :=
  mkLogConfig (py "INFO") None
    (py "%(asctime)s - %(name)s - %(levelname)s - %(message)s")
    (10 * 1024 * 1024).

(** ** JAPANESE_EVENT_DESCRIPTIONS *)

Definition JAPANESE_EVENT_DESCRIPTIONS : gmap pystr pystr :=
  list_to_map
  [ (py "Notification", py "クロードが準備完了しました");
    (py "Stop", py "タスクが完了しました");
    (py "SubagentStop", py "サブタスクが完了しました");
    (py "UserPromptSubmit", py "ユーザーがプロンプトを送信しました");
    (py "Edit", py "ファイルを編集しています");
    (py "MultiEdit", py "複数の編集を実行しています");
    (py "Write", py "ファイルを作成しています");
    (py "NotebookEdit", py "ノートブックを編集しています");
    (py "TodoWrite", py "タスクリストを更新しています");
    (py "Read", py "ファイルを読み込んでいます");
    (py "Grep", py "テキストを検索しています");
    (py "Task", py "タスクを実行しています");
    (py "Bash", py "コマンドを実行しています");
    (py "LS", py "ディレクトリを一覧表示しています");
    (py "Glob", py "ファイルパターンを検索しています");
    (py "exit_plan_mode", py "計画モードを終了しています");
    (py "WebFetch", py "ウェブページを取得しています");
    (py "WebSearch", py "ウェブ検索を実行しています");
    (py "git_commit", py "Gitコミットを作成しています");
    (py "git_push", py "変更をプッシュしています");
    (py "git_pull", py "変更をプルしています");
    (py "gh_pr", py "プルリクエストを作成しています");
    (py "test", py "テストを実行しています");
    (py "build", py "ビルドを実行しています");
    (py "docker", py "Dockerコマンドを実行しています");
    (py "npm", py "NPMコマンドを実行しています");
    (py "python", py "Pythonスクリプトを実行しています") ].

(** [JAPANESE_EVENT_DESCRIPTIONS.get(voice_key, voice_key)] *)
Definition describe (voice_key : pystr) : pystr :=
  default voice_key (JAPANESE_EVENT_DESCRIPTIONS !! voice_key).

(** ** The surroundings of the process *)

Inductive level := DEBUG | INFO | WARNING | ERROR.

(** One element of a command line: text, or [str(x)] of a number. *)
Inductive arg :=
| AStr (s : pystr)
| AFloat (q : Q)
| AInt (z : Z).

(** What the process does to its surroundings, in order. [Stderr]
    carries the fixed beginning of the line that is printed. *)
Inductive io :=
| Log (lvl : level) (msg : pystr)
| AuditAppend (event_data : json)
| Which (prog : pystr)
| Exists (path : pystr)
| Popen (cmd : list arg)
| Run (cmd : list arg)
| Bell
| WinBeep (freq dur : Z)
| Sleep (seconds : Q)
| Stderr (msg : pystr).

Definition trace := list io.

(** What reading standard input with [json.load] can end in, other
    than a value. *)
Inductive stdin_fault :=
| BadJSON
| BadEncoding
| TooDeep
| ReadError
| Interrupted.

(** How the surroundings answer. Answers depend on the question only,
    not on when it is asked. *)
Record World := mkWorld {
  platform_system : pystr;
  script_dir : pystr;
  environ : gmap pystr pystr;
  (** [subprocess.run(["which", prog], check=True)] returns normally *)
  which_ok : pystr -> bool;
  (** [subprocess.Popen(cmd)] / [subprocess.run(cmd)] returns normally *)
  spawn_ok : list arg -> bool;
  (** the answer of [Path.exists()]; a file system on which the call
      raises (a name that is too long, a directory that may not be
      searched) is not modelled *)
  path_exists : pystr -> bool;
  (** [print("\a", flush=True)] returns normally: standard output takes
      what is written to it *)
  bell_ok : bool;
  (** [import winsound; winsound.Beep(..)] returns normally *)
  winsound_ok : bool;
  (** the error text when appending to the audit log fails *)
  audit_error : option pystr;
  (** opening and parsing [hook_config.json] *)
  config_file_load : result json;
  stdin : json + stdin_fault;
  (** the error stream takes what is written to it *)
  stderr_ok : bool
}.

(** *** Paths

    A path is kept as the text [str] gives for it. The paths are those
    of the POSIX flavour of [pathlib]; the Windows flavour, with drives
    and two separators, is not modelled. *)

(** The pieces of [s] between occurrences of [c]. *)
Fixpoint split_on (c : N) (s : pystr) : list pystr :=
  match s with
  | [] => [[]]
  | x :: s' =>
    if x =? c then [] :: split_on c s'
    else match split_on c s' with
         | [] => [[x]]
         | piece :: pieces => (x :: piece) :: pieces
         end
  end.

(** The root of a path: [//] for exactly two leading separators, [/]
    for one or for three and more, and none otherwise. *)
Definition path_root (s : pystr) : pystr :=
  match s with
  | 47 :: 47 :: 47 :: _ => [47]
  | 47 :: 47 :: _ => [47; 47]
  | 47 :: _ => [47]
  | _ => []
  end.

(** A component that survives parsing: not empty and not [.]. *)
Definition kept (piece : pystr) : bool :=
  nonempty piece && negb (PyStr.eqb piece [46]).

(** The components of a path, without the root. *)
Definition path_parts (s : pystr) : list pystr :=
  List.filter kept (split_on 47 s).

Fixpoint join_parts (parts : list pystr) : pystr :=
  match parts with
  | [] => []
  | [piece] => piece
  | piece :: rest => piece ++ 47 :: join_parts rest
  end.

(** [str] of the path with the given root and components. *)
Definition path_render (root : pystr) (parts : list pystr) : pystr :=
  match root, parts with
  | [], [] => [46]
  | _, _ => root ++ join_parts parts
  end.

(** [str(Path(a) / b)]: a right operand with a root replaces the left
    one, otherwise its components are appended; empty components and
    [.] components are dropped. *)
Definition path_join (a b : pystr) : pystr :=
  match path_root b with
  | [] => path_render (path_root a) (path_parts a ++ path_parts b)
  | root => path_render root (path_parts b)
  end.

(** ** Sound and voice players *)

Module SoundPlayer.
Record t := mk {
  name : pystr;
  is_available : World -> bool * trace;
  play : World -> pystr -> Q -> bool * trace
}.
End SoundPlayer.

Module VoicePlayer.
Record t := mk {
  name : pystr;
  is_available : World -> bool * trace;
  speak : World -> pystr -> VoiceConfig -> bool * trace
}.
End VoicePlayer.

Definition AfplaySoundPlayer : SoundPlayer.t :=
  SoundPlayer.mk (py "afplay")
    (fun w => (which_ok w (py "afplay"), [Which (py "afplay")]))
    (fun w sound_path vol =>
       let cmd := [AStr (py "afplay"); AStr sound_path]
                   ++ (if negb (Qle_bool 1 vol)
                       then [AStr (py "-v"); AFloat vol] else []) in
       (spawn_ok w cmd, [Popen cmd])).

Definition SoxSoundPlayer : SoundPlayer.t :=
  SoundPlayer.mk (py "sox")
    (fun w => (which_ok w (py "play"), [Which (py "play")]))
    (fun w sound_path vol =>
       let cmd := [AStr (py "play"); AStr sound_path; AStr (py "vol");
                   AFloat vol] in
       (spawn_ok w cmd, [Popen cmd])).

Definition beep (w : World) : bool * trace :=
  if PyStr.eqb (platform_system w) (py "Darwin") then
    let cmd := [AStr (py "osascript"); AStr (py "-e"); AStr (py "beep")] in
    (spawn_ok w cmd, [Popen cmd])
  else if PyStr.eqb (platform_system w) (py "Linux") then (bell_ok w, [Bell])
  else if PyStr.eqb (platform_system w) (py "Windows") then
    (winsound_ok w, [WinBeep 1000 200])
  else (bell_ok w, [Bell]).

Definition SystemBeepPlayer : SoundPlayer.t :=
  SoundPlayer.mk (py "system_beep")
    (fun _ => (true, []))
    (fun w _ _ => beep w).

Definition MacOSSayVoicePlayer : VoicePlayer.t :=
  VoicePlayer.mk (py "macos_say")
    (fun w => (which_ok w (py "say")
               && PyStr.eqb (platform_system w) (py "Darwin"),
               [Which (py "say")]))
    (fun w text cfg =>
       let cmd := [AStr (py "say"); AStr (py "-v"); AStr (voice_name cfg)]
                   ++ (if (rate cfg =? 200)%Z then []
                       else [AStr (py "-r"); AInt (rate cfg)])
                   ++ [AStr text] in
       (spawn_ok w cmd, [if async_speak cfg then Popen cmd else Run cmd])).

Definition EspeakVoicePlayer : VoicePlayer.t :=
  VoicePlayer.mk (py "espeak")
    (fun w => (which_ok w (py "espeak"), [Which (py "espeak")]))
    (fun w text cfg =>
       let cmd := [AStr (py "espeak"); AStr (py "-s"); AInt (rate cfg)]
                   ++ (if starts_with (py "ja") (language cfg)
                       then [AStr (py "-v"); AStr (py "ja")] else [])
                   ++ [AStr text] in
       (spawn_ok w cmd, [if async_speak cfg then Popen cmd else Run cmd])).

(** ** AudioManager *)

Module AudioManager.

Record t := mk {
  config : HookConfig;
  sound_players : list SoundPlayer.t;
  voice_players : list VoicePlayer.t;
  (** the [lru_cache] of [_find_sound_file], most recent first *)
  found : list (pystr * option pystr)
}.

Definition maxsize : nat := 32.

(** The loop over the player classes: a player is kept when its probe
    says so. *)
Fixpoint probe_sound (classes : list SoundPlayer.t) (w : World)
  : list SoundPlayer.t * trace :=
  match classes with
  | [] => ([], [])
  | player :: rest =>
    let '(ok, t1) := SoundPlayer.is_available player w in
    let '(players, t2) := probe_sound rest w in
    if ok
    then (player :: players,
          t1 ++ Log DEBUG (py "Initialized " ++ SoundPlayer.name player
                           ++ py " sound player") :: t2)
    else (players, t1 ++ t2)
  end.

(** [_init_sound_players] for a given list of player classes. *)
Definition init_sound_players_from (classes : list SoundPlayer.t) (w : World)
  : list SoundPlayer.t * trace :=
  let '(players, t1) := probe_sound classes w in
  match players with
  | [] => ([SystemBeepPlayer],
           t1 ++ [Log WARNING
                    (py "No audio players available, using system beep")])
  | _ :: _ => (players, t1)
  end.

Definition player_classes : list SoundPlayer.t :=
  [AfplaySoundPlayer; SoxSoundPlayer; SystemBeepPlayer].

Definition _init_sound_players (w : World) : list SoundPlayer.t * trace :=
  init_sound_players_from player_classes w.

Fixpoint probe_voice (classes : list VoicePlayer.t) (w : World)
  : list VoicePlayer.t * trace :=
  match classes with
  | [] => ([], [])
  | player :: rest =>
    let '(ok, t1) := VoicePlayer.is_available player w in
    let '(players, t2) := probe_voice rest w in
    if ok
    then (player :: players,
          t1 ++ Log DEBUG (py "Initialized " ++ VoicePlayer.name player
                           ++ py " voice player") :: t2)
    else (players, t1 ++ t2)
  end.

Definition _init_voice_players (w : World) : list VoicePlayer.t * trace :=
  probe_voice [MacOSSayVoicePlayer; EspeakVoicePlayer] w.

(** [AudioManager(config)] *)
Definition init (w : World) (cfg : HookConfig) : t * trace :=
  let '(sp, t1) := _init_sound_players w in
  let '(vp, t2) := _init_voice_players w in
  (mk cfg sp vp [], t1 ++ t2).

Definition extensions : list pystr :=
  [py ".wav"; py ".mp3"; py ".ogg"; py ".m4a"; py ".flac"].

(** The body of [_find_sound_file]: the first extension whose file
    exists. *)
Fixpoint probe_exts (w : World) (dir sound_name : pystr) (exts : list pystr)
  : option pystr * trace :=
  match exts with
  | [] => (None, [])
  | ext :: exts' =>
    let sound_path := path_join dir (sound_name ++ ext) in
    if path_exists w sound_path
    then (Some sound_path, [Exists sound_path])
    else let '(r, t1) := probe_exts w dir sound_name exts' in
         (r, Exists sound_path :: t1)
  end.

Fixpoint cache_get (k : pystr) (c : list (pystr * option pystr))
  : option (option pystr) :=
  match c with
  | [] => None
  | (k', v) :: c' => if PyStr.eqb k' k then Some v else cache_get k c'
  end.

Definition cache_drop (k : pystr) (c : list (pystr * option pystr))
  : list (pystr * option pystr) :=
  List.filter (fun e => negb (PyStr.eqb (fst e) k)) c.

(** [_find_sound_file] behind its [lru_cache(maxsize=32)]: a hit is
    answered from the cache and becomes the most recent entry, a miss
    runs the body and evicts the least recent entry when full. *)
Definition _find_sound_file (w : World) (self : t) (sound_name : pystr)
  : option pystr * t * trace :=
  match cache_get sound_name (found self) with
  | Some r =>
    (r, mk (config self) (sound_players self) (voice_players self)
           ((sound_name, r) :: cache_drop sound_name (found self)), [])
  | None =>
    let dir := path_join (sounds_dir (config self)) (sound_type (config self)) in
    let '(r, t1) := probe_exts w dir sound_name extensions in
    (r, mk (config self) (sound_players self) (voice_players self)
           (take maxsize ((sound_name, r) :: found self)), t1)
  end.

(** [_play_system_beep] *)
Definition _play_system_beep (w : World) : bool * trace :=
  SoundPlayer.play SystemBeepPlayer w (py "/dev/null") 1.

(** The loop "try each player until one succeeds". *)
Fixpoint try_players (w : World) (players : list SoundPlayer.t)
  (sound_name sound_path : pystr) (vol : Q) : bool * trace :=
  match players with
  | [] => (false, [])
  | player :: rest =>
    let '(ok, t1) := SoundPlayer.play player w sound_path vol in
    if ok
    then (true, t1 ++ [Log DEBUG (py "Played " ++ sound_name ++ py " using "
                                  ++ SoundPlayer.name player)])
    else let '(r, t2) := try_players w rest sound_name sound_path vol in
         (r, t1 ++ t2)
  end.

(** The security check of [play_sound]. *)
Definition invalid_name (sound_name : pystr) : bool :=
  contains (py "/") sound_name || contains (py "\") sound_name
  || contains (py "..") sound_name.

Definition play_sound (w : World) (self : t) (sound_name : pystr)
  : bool * t * trace :=
  if invalid_name sound_name
  then (false, self, [Log ERROR (py "Invalid sound name: " ++ sound_name)])
  else
    let '(sound_path, self1, t1) := _find_sound_file w self sound_name in
    let fallback := fallback_enabled (sound_config (config self)) in
    match sound_path with
    | None =>
      let t2 := t1 ++ [Log WARNING (py "Sound file not found: " ++ sound_name)] in
      if fallback
      then let '(r, t3) := _play_system_beep w in
           (r, self1,
            t2 ++ Log INFO (py "Using system beep as fallback") :: t3)
      else (false, self1, t2)
    | Some p =>
      let '(ok, t2) := try_players w (sound_players self) sound_name p
                         (volume (sound_config (config self))) in
      if ok then (true, self1, t1 ++ t2)
      else if fallback
      then let '(r, t3) := _play_system_beep w in (r, self1, t1 ++ t2 ++ t3)
      else (false, self1, t1 ++ t2)
    end.

Fixpoint try_voices (w : World) (players : list VoicePlayer.t)
  (text : pystr) (cfg : VoiceConfig) : bool * trace :=
  match players with
  | [] => (false, [Log ERROR (py "All voice players failed")])
  | player :: rest =>
    let '(ok, t1) := VoicePlayer.speak player w text cfg in
    if ok
    then (true, t1 ++ [Log DEBUG (py "Spoke text using "
                                  ++ VoicePlayer.name player)])
    else let '(r, t2) := try_voices w rest text cfg in (r, t1 ++ t2)
  end.

Definition speak_text (w : World) (self : t) (text : pystr) : bool * trace :=
  match voice_players self with
  | [] => (false, [Log WARNING (py "No voice players available")])
  | _ :: _ => try_voices w (voice_players self) text (voice_config (config self))
  end.

End AudioManager.

(** ** HookHandler *)

Module HookHandler.

Record t := mk {
  config : HookConfig;
  audio_manager : AudioManager.t
}.

Definition init (w : World) (cfg : HookConfig) : t * trace :=
  let '(am, t1) := AudioManager.init w cfg in (mk cfg am, t1).

(** Truth value of an optional string: [None] and the empty string are
    false. *)
Definition truthy (x : option pystr) : bool :=
  match x with
  | Some s => nonempty s
  | None => false
  end.

(** An optional string inside an f-string. *)
Definition fmt (x : option pystr) : pystr :=
  match x with
  | Some s => s
  | None => py "None"
  end.

(** [_log_event]: a failed write is logged and swallowed. *)
Definition _log_event (w : World) (event_data : json) : trace :=
  AuditAppend event_data ::
  match audit_error w with
  | Some e => [Log ERROR (py "Failed to log event: " ++ e)]
  | None => []
  end.

(** The voice step: the description is looked up, announced in the log
    and, unless in test mode, spoken. *)
Definition voice_step (w : World) (self : t) (voice_key : pystr) : trace :=
  let japanese_text := describe voice_key in
  Log INFO (py "Speaking: " ++ japanese_text) ::
  (if test_mode (config self) then []
   else snd (AudioManager.speak_text w (audio_manager self) japanese_text)).

(** The sound step; [delay] tells whether it is preceded by
    [time.sleep(0.1)], as it is in mode [both]. *)
Definition sound_step (w : World) (self : t) (delay : bool)
  (sound_name : pystr) : t * trace :=
  let t0 := Log INFO (py "Playing sound '" ++ sound_name ++ py "' for event") in
  if test_mode (config self) then (self, [t0])
  else
    let '(_, am, t1) :=
      AudioManager.play_sound w (audio_manager self) sound_name in
    (mk (config self) am,
     t0 :: (if delay then [Sleep (1 # 10)] else []) ++ t1).

(** The part of [handle_event] that follows matching. *)
Definition dispatch (w : World) (self : t) (sound_name voice_key : option pystr)
  : t * trace :=
  if negb (truthy sound_name) && negb (truthy voice_key)
  then (self, [Log DEBUG (py "No matching sound or voice for event")])
  else
    let '(self1, t1) :=
      if PyStr.eqb (mode (config self)) (py "sound") && truthy sound_name
      then sound_step w self false (fmt sound_name)
      else if PyStr.eqb (mode (config self)) (py "voice") && truthy voice_key
      then (self, voice_step w self (fmt voice_key))
      else if PyStr.eqb (mode (config self)) (py "both")
      then
        let tv := if truthy voice_key
                  then voice_step w self (fmt voice_key) else [] in
        let '(self', ts) := if truthy sound_name
                            then sound_step w self true (fmt sound_name)
                            else (self, []) in
        (self', tv ++ ts)
      else (self, []) in
    (self1,
     t1 ++ (if test_mode (config self)
            then [Log INFO (py "TEST MODE: Would play " ++ fmt sound_name
                            ++ py " and/or speak " ++ fmt voice_key)]
            else [])).

Definition handle_event (w : World) (self : t) (event_data : json)
  : result unit * t * trace :=
  let t0 := _log_event w event_data in
  match find_match event_data with
  | Raise e => (Raise e, self, t0)
  | Ok (sound_name, voice_key) =>
    let '(self1, t1) := dispatch w self sound_name voice_key in
    (Ok tt, self1, t0 ++ t1)
  end.

End HookHandler.

(** ** Configuration loading and the entry point *)

Module Main.

(** [s.lower() == "true"]: of all characters only the ASCII capitals
    lower-case to the letters of [true]. *)
Definition is_true (s : pystr) : bool :=
  PyStr.eqb (List.map (fun c => if is_ascii_upper c then c + 32 else c) s)
            (py "true").

Definition getenv (w : World) (key dflt : string) : pystr :=
  default (py dflt) (environ w !! py key).
Arguments getenv w (key dflt)%_string.

(** [load_config]: whatever opening or parsing [hook_config.json] ends
    in is discarded; the settings come from the environment. *)
Definition load_config (w : World) : HookConfig * trace :=
  let config_file := path_join (script_dir w) (py "hook_config.json") in
  let t0 := [Exists config_file] in
  let _parsed :=
    if path_exists w config_file
    then match config_file_load w with
         | Ok config_data => Some config_data
         | Raise _ => None
         end
    else None in
  (mkHookConfig
     (path_join (script_dir w) (py "sounds"))
     (getenv w "CLAUDE_HOOK_SOUND_TYPE" "beeps")
     (getenv w "CLAUDE_HOOK_MODE" "voice")
     default_SoundConfig
     (default_VoiceConfig (getenv w "CLAUDE_HOOK_VOICE" "Kyoko"))
     default_LogConfig
     (is_true (getenv w "CLAUDE_HOOK_DEBUG" ""))
     (is_true (getenv w "CLAUDE_HOOK_TEST" "")),
   t0).

Definition exn_of_fault (f : stdin_fault) : exn :=
  match f with
  | BadJSON => JSONDecodeError
  | BadEncoding => UnicodeDecodeError
  | TooDeep => RecursionError
  | ReadError => OSError
  | Interrupted => KeyboardInterrupt
  end.

(** [json.load(sys.stdin)] *)
Definition read_event (w : World) : result json :=
  match stdin w with
  | inl event_data => Ok event_data
  | inr f => Raise (exn_of_fault f)
  end.

(** The body of the [try] block; it ends in [sys.exit(0)], that is in
    raising [SystemExit]. *)
Definition body (w : World) : result unit * trace :=
  let '(config, t0) := load_config w in
  let '(handler, t1) := HookHandler.init w config in
  match read_event w with
  | Raise e => (Raise e, t0 ++ t1)
  | Ok event_data =>
    let '(r, _, t2) := HookHandler.handle_event w handler event_data in
    (let* _ := r in Raise (SystemExit 0), t0 ++ t1 ++ t2)
  end.

(** The [except] clauses, in order, with the status each of them asks
    for. *)
Definition handlers (e : exn) : Z * trace :=
  match e with
  | JSONDecodeError => (1%Z, [Stderr (py "Error parsing JSON: ")])
  | KeyboardInterrupt => (0%Z, [])
  | SystemExit code => (code, [])
  | AttributeError | TypeError | UnicodeDecodeError | RecursionError
  | OSError => (0%Z, [Stderr (py "Unexpected error: ")])
  end.

(** [main]: the status its [sys.exit] asks for, and what the run did.
    The status the process ends with is [exit_status] below. *)
Definition main (w : World) : Z * trace :=
  let '(r, t0) := body w in
  match r with
  | Raise e => let '(code, t1) := handlers e in (code, t0 ++ t1)
  | Ok _ => (0%Z, t0)
  end.

(** An event that writes to the error stream: a line printed there,
    or a call of the logger at the level [INFO] of the default
    [LogConfig], which [load_config] always uses, or above. *)
Definition reaches_stderr (e : io) : bool :=
  match e with
  | Stderr _ | Log INFO _ | Log WARNING _ | Log ERROR _ => true
  | _ => false
  end.

(** A write of the run that its stream did not take. *)
Definition write_fault (w : World) (t : trace) : bool :=
  existsb (fun e => match e with
                    | Bell => negb (bell_ok w)
                    | _ => reaches_stderr e && negb (stderr_ok w)
                    end) t.

(** The exit status of the process. What a stream did not take is still
    in its buffer when the interpreter exits; the flush at exit fails
    again and turns the status into 120, whatever the [except] clauses
    asked for. *)
Definition exit_status (w : World) : Z :=
  if write_fault w (snd (main w)) then 120%Z else fst (main w).

End Main.

(** * Vocabulary of the properties *)

(** The predicate a rule applies to a piece of text. *)
Definition hits (s : pystr) (p : Pattern) : bool :=
  re_match (compile (regex p)) s.

(** [p] is the rule of [table] that the shell-command category selects
    for [cmd]: it matches, every matching rule declared before it has a
    strictly smaller priority and no matching rule declared after it has
    a larger one. *)
Definition selected (table : list Pattern) (cmd : pystr) (p : Pattern) : Prop :=
  exists before after,
    table = before ++ p :: after
    /\ hits cmd p = true
    /\ (forall q, In q before -> hits cmd q = true ->
                  (priority q < priority p)%Z)
    /\ (forall q, In q after -> hits cmd q = true ->
                  (priority q <= priority p)%Z).

(** The keys of the payload that [find_match] reads. *)
Module Keys.
Definition event : pystr := py "hook_event_name".
Definition tool : pystr := py "tool_name".
Definition input : pystr := py "tool_input".
Definition command : pystr := py "command".
End Keys.

(** Sample payloads. *)
Module Sample.

Definition str (s : string) : json := JStr (py s).
Arguments str s%_string.

Definition shell (cmd : string) : gmap pystr json :=
  list_to_map
    [ (Keys.event, str "PreToolUse"); (Keys.tool, str "Bash");
      (Keys.input, JObj (list_to_map [(Keys.command, JStr (py cmd))])) ].
Arguments shell cmd%_string.

Definition stop : gmap pystr json :=
  list_to_map [ (Keys.event, str "Stop"); (Keys.tool, str "Bash") ].

(** Only the event is named. *)
Definition event_only : gmap pystr json :=
  list_to_map [ (Keys.event, str "PreToolUse") ].

(** [hook_event_name] is a number. *)
Definition numeric_event_name : json :=
  JObj (list_to_map [ (Keys.event, JInt 5) ]).

(** [tool_input] is text where a mapping is expected. *)
Definition text_tool_input : json :=
  JObj (list_to_map
    [ (Keys.event, str "PreToolUse"); (Keys.tool, str "Bash");
      (Keys.input, str "ls -la") ]).

(** [command] is a list where text is expected. *)
Definition list_command : json :=
  JObj (list_to_map
    [ (Keys.event, str "PreToolUse"); (Keys.tool, str "Bash");
      (Keys.input, JObj (list_to_map
         [(Keys.command, JArr [str "ls"; str "-la"])])) ]).

End Sample.

(** The payload of a shell-executor pre-execution event. *)
Definition shell_pre_event (m : gmap pystr json) : Prop :=
  m !! Keys.tool = Some (JStr (py "Bash"))
  /\ m !! Keys.event = Some (JStr (py "PreToolUse")).

(** The value [find_match] works with for a field that is read with a
    default of [""]. *)
Definition field (m : gmap pystr json) (key : pystr) : json :=
  match m !! key with Some v => v | None => JStr (py "") end.

(** A field that is text when it is there at all. *)
Definition text_or_missing (x : option json) : Prop :=
  match x with
  | None | Some (JStr _) => True
  | Some _ => False
  end.

(** The fields [find_match] reads have the types it expects:
    [hook_event_name] and [tool_name] are text, [tool_input] is a mapping
    whose [command] is text, each of them if present. *)
Definition well_typed (m : gmap pystr json) : Prop :=
  text_or_missing (m !! Keys.event)
  /\ text_or_missing (m !! Keys.tool)
  /\ match m !! Keys.input with
     | None => True
     | Some (JObj mi) => text_or_missing (mi !! Keys.command)
     | Some _ => False
     end.

(** The three categories of the table. *)
Definition all_rules : list Pattern :=
  Table.system_events ++ Table.tools ++ Table.bash_commands.

(** The voice key of [p] is a key of the description table. *)
Definition described (p : Pattern) : bool :=
  bool_decide (is_Some (JAPANESE_EVENT_DESCRIPTIONS !! voice_key p)).

(** [needle] occurs in [hay]. *)
Definition substring (needle hay : pystr) : Prop :=
  exists a b, hay = a ++ needle ++ b.

(** An event that asks the file system for a file. *)
Definition is_lookup (e : io) : bool :=
  match e with Exists _ => true | _ => false end.

(** An event by which a player produces sound or speech: a process is
    started, or the bell or the beep of the platform is rung. *)
Definition is_delivery (e : io) : bool :=
  match e with
  | Popen _ | Run _ | Bell | WinBeep _ _ => true
  | _ => false
  end.

(** A machine without any player installed, whose standard input is
    not JSON. *)
Definition quiet_world : World :=
  mkWorld (py "Linux") (py "/opt/hooks") ∅ (fun _ => false) (fun _ => true)
          (fun _ => true) true false None (Ok JNull) (inr BadJSON) true.

(** The configuration [load_config] builds for mode [md]. *)
Definition sample_config (md : string) (test : bool) : HookConfig :=
  mkHookConfig (py "/opt/hooks/sounds") (py "beeps") (py md)
               default_SoundConfig (default_VoiceConfig (py "Kyoko"))
               default_LogConfig false test.

(** A fresh [AudioManager] on the quiet machine. *)
Definition sample_manager (md : string) (test : bool) : AudioManager.t :=
  fst (AudioManager.init quiet_world (sample_config md test)).

(** The delay between speaking and playing. *)
Definition is_sleep (e : io) : bool :=
  match e with Sleep _ => true | _ => false end.

(** An event that only writes to the log or to the audit file. *)
Definition is_record (e : io) : bool :=
  match e with Log _ _ | AuditAppend _ => true | _ => false end.

(** A machine with [espeak] and [play] installed on which the sound
    file of every rule exists. *)
Definition busy_world : World :=
  mkWorld (py "Linux") (py "/opt/hooks") ∅
          (fun prog => PyStr.eqb prog (py "espeak") || PyStr.eqb prog (py "play"))
          (fun _ => true) (fun _ => true) true false None (Ok JNull)
          (inl (JObj Sample.stop)) true.

(** A fresh [HookHandler] on that machine. *)
Definition sample_handler (md : string) (test : bool) : HookHandler.t :=
  fst (HookHandler.init busy_world (sample_config md test)).

(** The two announcements in the log, and what speaking and playing
    leave in the trace. *)
Definition speaking (k : pystr) : io :=
  Log INFO (py "Speaking: " ++ describe k).
Definition playing (s : pystr) : io :=
  Log INFO (py "Playing sound '" ++ s ++ py "' for event").
Definition spoken (w : World) (self : HookHandler.t) (k : pystr) : trace :=
  snd (AudioManager.speak_text w (HookHandler.audio_manager self) (describe k)).
Definition played (w : World) (self : HookHandler.t) (s : pystr) : trace :=
  snd (AudioManager.play_sound w (HookHandler.audio_manager self) s).

(** The record [w] with another outcome of loading the configuration
    file. *)
Definition with_config_file (w : World) (r : result json) : World :=
  mkWorld (platform_system w) (script_dir w) (environ w) (which_ok w)
          (spawn_ok w) (path_exists w) (bell_ok w) (winsound_ok w)
          (audit_error w) r (stdin w) (stderr_ok w).

(** The record [w] with another outcome of appending to the audit
    log. *)
Definition with_audit_error (w : World) (err : option pystr) : World :=
  mkWorld (platform_system w) (script_dir w) (environ w) (which_ok w)
          (spawn_ok w) (path_exists w) (bell_ok w) (winsound_ok w)
          err (config_file_load w) (stdin w) (stderr_ok w).


(** ** Further vocabulary: registries, the file cache, the text *)

(** What the probe of a player answers, and whether a player manages to
    play a file or speak a text. *)
Definition sound_available (w : World) (p : SoundPlayer.t) : bool :=
  fst (SoundPlayer.is_available p w).
Definition voice_available (w : World) (p : VoicePlayer.t) : bool :=
  fst (VoicePlayer.is_available p w).
Definition plays (w : World) (sound_path : pystr) (vol : Q)
  (p : SoundPlayer.t) : bool :=
  fst (SoundPlayer.play p w sound_path vol).
Definition speaks (w : World) (text : pystr) (cfg : VoiceConfig)
  (p : VoicePlayer.t) : bool :=
  fst (VoicePlayer.speak p w text cfg).

(** The players of a manager are players of the program. *)
Definition standard_players (self : AudioManager.t) : Prop :=
  Forall (fun p => In p AudioManager.player_classes)
         (AudioManager.sound_players self).

Definition standard_voices (self : AudioManager.t) : Prop :=
  Forall (fun p => In p [MacOSSayVoicePlayer; EspeakVoicePlayer])
         (AudioManager.voice_players self).

(** The directory in which sound files are looked up. *)
Definition sound_dir (cfg : HookConfig) : pystr :=
  path_join (sounds_dir cfg) (sound_type cfg).

(** [path] names a file directly inside [dir]: it is [dir] joined with
    one component [file] that is proper (not empty, not [.], not [..],
    without separator), so that its root is the root of [dir] and its
    components are those of [dir] followed by [file]. *)
Definition directly_inside (dir path : pystr) : Prop :=
  exists file,
    ~ In 47 file /\ kept file = true /\ file <> [46; 46]
    /\ path = path_join dir file
    /\ path_root path = path_root dir
    /\ path_parts path = path_parts dir ++ [file].

(** A list of components as parsing a path leaves it. *)
Definition proper (parts : list pystr) : Prop :=
  Forall (fun piece => ~ In 47 piece /\ kept piece = true) parts.

(** The paths [_find_sound_file] tries for a sound name, in order. *)
Definition candidates (dir sound_name : pystr) (exts : list pystr)
  : list pystr :=
  List.map (fun ext => path_join dir (sound_name ++ ext)) exts.

(** The file cache holds at most [maxsize] entries and no sound name
    twice. *)
Definition cache_ok (c : list (pystr * option pystr)) : Prop :=
  (List.length c <= AudioManager.maxsize)%nat /\ NoDup (List.map fst c).

(** ASCII letters of a text turned to capitals, or to small letters. *)
Definition ascii_upper (c : N) : N := if is_ascii_lower c then c - 32 else c.
Definition ascii_lower (c : N) : N := if is_ascii_upper c then c + 32 else c.

(** An event that appends to the audit file. *)
Definition is_audit (e : io) : bool :=
  match e with AuditAppend _ => true | _ => false end.

(** A line of the log. *)
Definition is_log (e : io) : bool :=
  match e with Log _ _ => true | _ => false end.

(** The mode is one of the three the handler knows. *)
Definition known_mode (md : pystr) : bool :=
  PyStr.eqb md (py "sound") || PyStr.eqb md (py "voice")
  || PyStr.eqb md (py "both").

(** The value of a field is text. *)
Definition is_text (x : json) : bool :=
  match x with JStr _ => true | _ => false end.

(** A computation ends in an exception. *)
Definition raises {A} (r : result A) : Prop := exists e, r = Raise e.

(** The command of a payload cannot be read as text: [tool_input] is
    there and is no mapping, or its [command] is there and is no text. *)
Definition command_unreadable (m : gmap pystr json) : Prop :=
  match m !! Keys.input with
  | None => False
  | Some (JObj mi) =>
    match mi !! Keys.command with
    | None => False
    | Some c => is_text c = false
    end
  | Some _ => True
  end.

(** A read of [find_match] meets a field of a type it cannot use:
    [hook_event_name] is no text; or no system rule matches the event and
    [tool_name] is no text; or the event is exactly "PreToolUse" with
    tool exactly "Bash" and the command cannot be read as text. *)
Definition ill_typed_read (m : gmap pystr json) : Prop :=
  is_text (field m Keys.event) = false
  \/ (exists en, field m Keys.event = JStr en
         /\ List.find (hits en) Table.system_events = None
         /\ is_text (field m Keys.tool) = false)
  \/ (field m Keys.event = JStr (py "PreToolUse")
      /\ field m Keys.tool = JStr (py "Bash")
      /\ command_unreadable m).

(** An event of probing for a program, or a line of the log. *)
Definition is_probe (e : io) : bool :=
  match e with Which _ | Log _ _ => true | _ => false end.

(** The handler [main] builds, and what building it leaves in the
    trace. *)
Definition handler_of (w : World) : HookHandler.t :=
  fst (HookHandler.init w (fst (Main.load_config w))).
Definition startup (w : World) : trace :=
  snd (Main.load_config w) ++ snd (HookHandler.init w (fst (Main.load_config w))).

(** A machine with the macOS players, on which [afplay] fails to start
    and only the [.mp3] file of the sound "complete" exists. *)
Definition mac_world : World :=
  mkWorld (py "Darwin") (py "/opt/hooks")
          (list_to_map [(py "CLAUDE_HOOK_TEST", py "TRUE");
                        (py "CLAUDE_HOOK_MODE", py "both")])
          (fun prog => PyStr.eqb prog (py "afplay") || PyStr.eqb prog (py "say"))
          (fun cmd => match cmd with
                      | AStr prog :: _ => negb (PyStr.eqb prog (py "afplay"))
                      | _ => true
                      end)
          (fun path => PyStr.eqb path (py "/opt/hooks/sounds/beeps/complete.mp3"))
          true false (Some (py "disk full")) (Ok JNull)
          (inl (JObj Sample.stop)) true.

(** A fresh manager on that machine, for mode [sound]. *)
Definition mac_manager : AudioManager.t :=
  fst (AudioManager.init mac_world
         (mkHookConfig (py "/opt/hooks/sounds") (py "beeps") (py "sound")
                       default_SoundConfig (default_VoiceConfig (py "Kyoko"))
                       default_LogConfig false false)).

(** A Mac with [say] and [espeak] installed, on which [say] starts or
    fails to start. *)
Definition voices_world (say_starts : bool) : World :=
  mkWorld (py "Darwin") (py "/opt/hooks") ∅
          (fun prog => PyStr.eqb prog (py "say") || PyStr.eqb prog (py "espeak"))
          (fun cmd => match cmd with
                      | AStr prog :: _ =>
                        if PyStr.eqb prog (py "say") then say_starts else true
                      | _ => true
                      end)
          (fun _ => false) true false None (Ok JNull)
          (inl (JObj Sample.stop)) true.

(** A fresh manager on that machine, for mode [voice]. *)
Definition voices_manager : AudioManager.t :=
  fst (AudioManager.init (voices_world true) (sample_config "voice" false)).

(** A Linux machine without players and without sound files, in mode
    [sound], whose standard output takes nothing. *)
Definition full_stdout_world : World :=
  mkWorld (py "Linux") (py "/opt/hooks")
          (list_to_map [(py "CLAUDE_HOOK_MODE", py "sound")])
          (fun _ => false) (fun _ => true) (fun _ => false)
          false false None (Ok JNull) (inl (JObj Sample.stop)) true.

(** A machine whose error stream takes nothing, with a payload on
    standard input on which the matcher raises. *)
Definition full_stderr_world : World :=
  mkWorld (py "Linux") (py "/opt/hooks") ∅ (fun _ => true) (fun _ => true)
          (fun _ => false) true false None (Ok JNull)
          (inl Sample.numeric_event_name) false.

(** * Properties *)

Arguments py : simpl never.

(** ** The matcher decides the meaning of patterns *)

Section Regex.

Implicit Types (r : Re.regex) (s : pystr) (bol : bool).

Lemma accepts_void bol s : ~ accepts bol Void s.
Proof. intros H. inversion H. Qed.

Lemma accepts_cat_inv bol r1 r2 s :
  accepts bol (Cat r1 r2) s ->
  exists s1 s2, s = s1 ++ s2 /\ accepts bol r1 s1
                /\ accepts (bol && negb (nonempty s1)) r2 s2.
Proof. intros H. inversion H; subst. eauto. Qed.

Lemma accepts_star_inv bol r s :
  accepts bol (Star r) s ->
  s = [] \/ exists c s1 s2, s = c :: s1 ++ s2 /\ accepts bol r (c :: s1)
                            /\ accepts false (Star r) s2.
Proof. intros H. inversion H; subst; [left; reflexivity | right; eauto 6]. Qed.

Lemma nullable_spec bol r : nullable bol r = true <-> accepts bol r [].
Proof.
  induction r as [| | |p| | |r1 IH1 r2 IH2|r1 IH1 r2 IH2|r IH];
    cbn [nullable].
  - split; [discriminate | intros H; inversion H].
  - split; [intros _; constructor | reflexivity].
  - split; [intros ->; constructor | intros H; inversion H; reflexivity].
  - split; [discriminate | intros H; inversion H].
  - split; [discriminate | intros H; inversion H].
  - split; [discriminate | intros H; inversion H].
  - rewrite andb_true_iff, IH1, IH2. split.
    + intros [H1 H2]. change (@nil N) with (@nil N ++ []).
      apply acc_cat; [exact H1|]. cbn [nonempty negb].
      rewrite andb_true_r. exact H2.
    + intros H. destruct (accepts_cat_inv _ _ _ _ H) as (s1 & s2 & E & H1 & H2).
      symmetry in E. apply app_eq_nil in E. destruct E as [-> ->].
      cbn [nonempty negb] in H2. rewrite andb_true_r in H2. split; assumption.
  - rewrite orb_true_iff, IH1, IH2. split.
    + intros [H|H]; [apply acc_alt_l | apply acc_alt_r]; exact H.
    + intros H. inversion H; subst; [left | right]; assumption.
  - split; [intros _; constructor | reflexivity].
Qed.

Lemma deriv_spec r : forall bol c s,
  accepts false (deriv bol c r) s <-> accepts bol r (c :: s).
Proof.
  induction r as [| | |p| | |r1 IH1 r2 IH2|r1 IH1 r2 IH2|r IH];
    intros bol c s; cbn [deriv].
  - split; intros H; inversion H.
  - split; intros H; inversion H.
  - split; intros H; inversion H.
  - destruct (lit_match p c) eqn:Hm; split; intros H; inversion H; subst.
    + constructor. exact Hm.
    + constructor.
    + congruence.
  - destruct (dot_match c) eqn:Hm; split; intros H; inversion H; subst.
    + constructor. exact Hm.
    + constructor.
    + congruence.
  - destruct (is_space c) eqn:Hm; split; intros H; inversion H; subst.
    + constructor. exact Hm.
    + constructor.
    + congruence.
  - assert (Hcat : forall s1 s2,
               accepts false (deriv bol c r1) s1 -> accepts false r2 s2 ->
               accepts bol (Cat r1 r2) (c :: s1 ++ s2)).
    { intros s1 s2 H1 H2. change (c :: s1 ++ s2) with ((c :: s1) ++ s2).
      apply acc_cat; [apply IH1; exact H1|].
      cbn [nonempty negb]. rewrite andb_false_r. exact H2. }
    assert (Hinv : forall s0,
               accepts false (Cat (deriv bol c r1) r2) s0 ->
               accepts bol (Cat r1 r2) (c :: s0)).
    { intros s0 H.
      destruct (accepts_cat_inv _ _ _ _ H) as (s1 & s2 & -> & H1 & H2).
      apply Hcat; assumption. }
    assert (Hsplit : accepts bol (Cat r1 r2) (c :: s) ->
               (exists s1 s2, s = s1 ++ s2 /\ accepts false (deriv bol c r1) s1
                              /\ accepts false r2 s2)
               \/ (nullable bol r1 = true /\ accepts false (deriv bol c r2) s)).
    { intros H.
      destruct (accepts_cat_inv _ _ _ _ H) as (s1 & s2 & E2 & H1 & H2).
      destruct s1 as [|c1 s1]; cbn in E2.
      - subst s2. right. cbn [nonempty negb] in H2.
        rewrite andb_true_r in H2. split; [apply nullable_spec; exact H1|].
        apply IH2. exact H2.
      - injection E2 as <- ->. left. exists s1, s2.
        cbn [nonempty negb] in H2. rewrite andb_false_r in H2.
        split; [reflexivity|]. split; [apply IH1; exact H1 | exact H2]. }
    destruct (nullable bol r1) eqn:Hn; split.
    + intros H. inversion H; subst; [apply Hinv; assumption|].
      change (c :: s) with ([] ++ c :: s). apply acc_cat.
      * apply nullable_spec. exact Hn.
      * cbn [nonempty negb]. rewrite andb_true_r. apply IH2. assumption.
    + intros H. destruct (Hsplit H) as [(s1 & s2 & -> & H1 & H2)|[_ H2]].
      * apply acc_alt_l. apply acc_cat; [exact H1 | exact H2].
      * apply acc_alt_r. exact H2.
    + apply Hinv.
    + intros H. destruct (Hsplit H) as [(s1 & s2 & -> & H1 & H2)|[E _]].
      * apply acc_cat; [exact H1 | exact H2].
      * discriminate E.
  - split; intros H; inversion H; subst.
    + apply acc_alt_l. apply IH1. assumption.
    + apply acc_alt_r. apply IH2. assumption.
    + apply acc_alt_l. apply IH1. assumption.
    + apply acc_alt_r. apply IH2. assumption.
  - split; intros H.
    + destruct (accepts_cat_inv _ _ _ _ H) as (s1 & s2 & -> & H1 & H2).
      apply acc_star_more; [apply IH; exact H1 | exact H2].
    + destruct (accepts_star_inv _ _ _ H)
        as [E|(c' & s1 & s2 & E & H1 & H2)]; [discriminate E|].
      injection E as <- ->.
      apply acc_cat; [apply IH; exact H1 | exact H2].
Qed.

Lemma match_from_spec s : forall bol r,
  match_from s bol r = true
  <-> exists pre suf, s = pre ++ suf /\ accepts bol r pre.
Proof.
  induction s as [|c s IH]; intros bol r; cbn [match_from].
  - rewrite orb_false_r, nullable_spec. split.
    + intros H. exists [], []. split; [reflexivity | exact H].
    + intros (pre & suf & E & H). symmetry in E.
      apply app_eq_nil in E. destruct E as [-> _]. exact H.
  - rewrite orb_true_iff, nullable_spec, IH. split.
    + intros [H|(pre & suf & -> & H)].
      * exists [], (c :: s). split; [reflexivity | exact H].
      * exists (c :: pre), suf. split; [reflexivity|]. apply deriv_spec. exact H.
    + intros (pre & suf & E & H). destruct pre as [|c' pre].
      * left. exact H.
      * injection E as <- ->. right. exists pre, suf.
        split; [reflexivity|]. apply deriv_spec. exact H.
Qed.

(** [re_match] holds exactly when the pattern matches a prefix of the
    text. *)
Lemma re_match_spec r s : re_match r s = true <-> matches_prefix r s.
Proof. apply match_from_spec. Qed.

(** The match is anchored at the start, need not reach the end, and
    ignores case. *)
Example re_match_prefix :
  re_match (compile (py "^git\s+commit")) (py "git  commit -m x") = true
  /\ re_match (compile (py "^git\s+commit")) (py "GIT Commit") = true
  /\ re_match (compile (py "^git\s+commit")) (py "sudo git commit") = false
  /\ re_match (compile (py "Stop")) (py "stopped") = true
  /\ re_match (compile (py "Stop")) (py "SubagentStop") = false
  /\ re_match (compile (py "^pytest|^python.*test")) (py "python -m unittest")
     = true.
Proof. vm_compute. repeat split; reflexivity. Qed.

(** Every pattern of the table is in the fragment that [parse] reads. *)
Lemma table_patterns_parse :
  forallb (fun p => bool_decide (is_Some (parse (regex p))))
          (Table.system_events ++ Table.tools ++ Table.bash_commands) = true.
Proof. vm_compute. reflexivity. Qed.

End Regex.

(** ** Matching *)

Section Matching.

Implicit Types (p q : Pattern) (s cmd : pystr) (m : gmap pystr json).

Lemma first_match_str ps s :
  first_match ps (JStr s) = Ok (List.find (hits s) ps).
Proof.
  induction ps as [|p ps IH]; [reflexivity|].
  cbn [first_match matches bind List.find]. unfold hits at 1.
  destruct (re_match (compile (regex p)) s); [reflexivity | exact IH].
Qed.

Lemma collect_str ps s :
  collect ps (JStr s) = Ok (List.filter (hits s) ps).
Proof.
  induction ps as [|p ps IH]; [reflexivity|].
  cbn [collect matches bind List.filter]. rewrite IH. reflexivity.
Qed.

Lemma first_match_not_str ps x :
  (forall s, x <> JStr s) -> ps <> [] -> first_match ps x = Raise TypeError.
Proof.
  intros Hx Hps. destruct ps as [|p ps]; [congruence|].
  destruct x; try reflexivity. exfalso. exact (Hx _ eq_refl).
Qed.

(** [max_from] returns the first element of largest priority. *)
Lemma max_from_first_max best l :
  exists before after,
    best :: l = before ++ max_from best l :: after
    /\ (forall q, In q before -> (priority q < priority (max_from best l))%Z)
    /\ (forall q, In q after -> (priority q <= priority (max_from best l))%Z).
Proof.
  revert best. induction l as [|x l IH]; intros best.
  - exists [], []. repeat split; intros q [].
  - cbn [max_from]. destruct (Z.ltb_spec (priority best) (priority x)) as [Hlt|Hge].
    + destruct (IH x) as (before & after & Heq & Hb & Ha).
      exists (best :: before), after. split; [cbn; f_equal; exact Heq|].
      split; [|exact Ha].
      intros q [<-|Hq]; [|exact (Hb q Hq)].
      destruct before as [|b before']; cbn in Heq.
      * injection Heq as Hx _. rewrite <- Hx. exact Hlt.
      * injection Heq as Hx _.
        assert (priority x < priority (max_from x l))%Z by (apply Hb; left; congruence).
        lia.
    + destruct (IH best) as (before & after & Heq & Hb & Ha).
      destruct before as [|b before']; cbn in Heq.
      * injection Heq as Hbest Hl.
        exists [], (x :: after). split; [cbn; congruence|].
        split; [intros q []|].
        intros q [<-|Hq]; [rewrite <- Hbest; lia | exact (Ha q Hq)].
      * injection Heq as Hbest Hl. subst b.
        exists (best :: x :: before'), after.
        split; [cbn; do 2 f_equal; exact Hl|].
        split; [|exact Ha].
        intros q [<-|[<-|Hq]].
        -- apply Hb. left. reflexivity.
        -- assert (priority best < priority (max_from best l))%Z
             by (apply Hb; left; reflexivity). lia.
        -- apply Hb. right. exact Hq.
Qed.

(** A split of a filtered list comes from a split of the list. *)
Lemma filter_split {A} (f : A -> bool) (l : list A) before x after :
  List.filter f l = before ++ x :: after ->
  exists l1 l2, l = l1 ++ x :: l2
    /\ List.filter f l1 = before /\ List.filter f l2 = after /\ f x = true.
Proof.
  revert before. induction l as [|a l IH]; intros before Heq.
  - destruct before; discriminate.
  - cbn [List.filter] in Heq. destruct (f a) eqn:Hfa.
    + destruct before as [|b before']; cbn in Heq.
      * injection Heq as -> Hl. exists [], l. cbn. auto.
      * injection Heq as -> Hl. destruct (IH _ Hl) as (l1 & l2 & -> & H1 & H2 & Hx).
        exists (b :: l1), l2. cbn. rewrite Hfa, H1. auto.
    + destruct (IH _ Heq) as (l1 & l2 & -> & H1 & H2 & Hx).
      exists (a :: l1), l2. cbn. rewrite Hfa. auto.
Qed.

Lemma max_of_filter_selected table cmd x l :
  List.filter (hits cmd) table = x :: l ->
  selected table cmd (max_from x l).
Proof.
  intros Hf.
  destruct (max_from_first_max x l) as (before & after & Heq & Hb & Ha).
  rewrite <- Hf in Heq.
  destruct (filter_split _ _ _ _ _ Heq) as (l1 & l2 & -> & H1 & H2 & Hx).
  exists l1, l2. split; [reflexivity|]. split; [exact Hx|].
  split; intros q Hq Hhit.
  - apply Hb. rewrite <- H1. apply filter_In. auto.
  - apply Ha. rewrite <- H2. apply filter_In. auto.
Qed.

(** The selected rule is unique. *)
Lemma selected_unique table cmd p q :
  selected table cmd p -> selected table cmd q -> p = q.
Proof.
  intros (b1 & a1 & E1 & H1 & Hb1 & Ha1) (b2 & a2 & E2 & H2 & Hb2 & Ha2).
  revert b2 E2 Hb2. subst table.
  induction b1 as [|x b1 IH]; intros b2 E2 Hb2.
  - destruct b2 as [|y b2]; cbn in E2; [congruence|].
    injection E2 as -> E2.
    assert (priority y < priority q)%Z by (apply Hb2; [left; reflexivity|exact H1]).
    assert (priority q <= priority y)%Z.
    { apply Ha1; [|exact H2]. rewrite E2. apply in_or_app. right. left. reflexivity. }
    lia.
  - destruct b2 as [|y b2]; cbn in E2.
    + injection E2 as -> E2.
      assert (priority q < priority p)%Z by (apply Hb1; [left; reflexivity|exact H2]).
      assert (priority p <= priority q)%Z.
      { apply Ha2; [|exact H1]. rewrite <- E2. apply in_or_app. right. left. reflexivity. }
      lia.
    + injection E2 as -> E2. apply (IH ltac:(intros; apply Hb1; [right|]; assumption) b2 E2).
      intros; apply Hb2; [right|]; assumption.
Qed.

End Matching.

(** ** What [find_match] returns *)

Lemma keys_event_tool : Keys.event <> Keys.tool.
Proof. intros H. vm_compute in H. discriminate H. Qed.
Lemma keys_event_input : Keys.event <> Keys.input.
Proof. intros H. vm_compute in H. discriminate H. Qed.
Lemma keys_tool_input : Keys.tool <> Keys.input.
Proof. intros H. vm_compute in H. discriminate H. Qed.

Section FindMatch.

Implicit Types (p q : Pattern) (s cmd : pystr) (m : gmap pystr json).

Lemma pre_tool_use_no_system_rule :
  List.find (hits (py "PreToolUse")) Table.system_events = None.
Proof. vm_compute. reflexivity. Qed.

Lemma bash_no_tool_rule :
  List.find (hits (py "Bash")) Table.tools = None.
Proof. vm_compute. reflexivity. Qed.

Lemma catch_all_hits s : hits s Table.catch_all = true.
Proof. destruct s; reflexivity. Qed.

Lemma catch_all_declared : In Table.catch_all Table.bash_commands.
Proof. unfold Table.bash_commands. repeat (try (left; reflexivity); right). Qed.

(** On a shell pre-execution event matching reaches the third
    category. *)
Lemma find_match_shell m cmd :
  shell_pre_event m ->
  command_of (JObj m) = Ok (JStr cmd) ->
  find_match (JObj m) =
  match List.filter (hits cmd) Table.bash_commands with
  | [] => Ok (None, None)
  | x :: l => Ok (pair_of (max_from x l))
  end.
Proof.
  intros [Ht He] Hc. unfold find_match.
  cbn [py_get bind]. fold Keys.event Keys.tool. rewrite He, Ht.
  rewrite !first_match_str.
  rewrite pre_tool_use_no_system_rule, bash_no_tool_rule. cbn [bind].
  replace (eq_str (JStr (py "Bash")) (py "Bash")) with true
    by (vm_compute; reflexivity).
  replace (eq_str (JStr (py "PreToolUse")) (py "PreToolUse")) with true
    by (vm_compute; reflexivity).
  cbn [andb]. rewrite Hc. cbn [bind]. rewrite collect_str. reflexivity.
Qed.

Lemma shell_filter_nonempty cmd :
  List.filter (hits cmd) Table.bash_commands <> [].
Proof.
  intros H.
  assert (Hin : In Table.catch_all (List.filter (hits cmd) Table.bash_commands)).
  { apply filter_In. split; [apply catch_all_declared | apply catch_all_hits]. }
  rewrite H in Hin. exact Hin.
Qed.

End FindMatch.

Section Claims_matching.

Implicit Types (p q : Pattern) (s cmd : pystr) (m : gmap pystr json).

Lemma find_match_text m en tn :
  field m Keys.event = JStr en ->
  field m Keys.tool = JStr tn ->
  find_match (JObj m) =
  match List.find (hits en) Table.system_events with
  | Some p => Ok (pair_of p)
  | None =>
    match List.find (hits tn) Table.tools with
    | Some p => Ok (pair_of p)
    | None =>
      if PyStr.eqb tn (py "Bash") && PyStr.eqb en (py "PreToolUse")
      then let* command := command_of (JObj m) in
           let* ms := collect Table.bash_commands command in
           match ms with
           | [] => Ok (None, None)
           | x :: l => Ok (pair_of (max_from x l))
           end
      else Ok (None, None)
    end
  end.
Proof.
  unfold field, find_match. cbn [py_get bind].
  fold Keys.event Keys.tool. intros -> ->.
  rewrite !first_match_str. cbn [bind].
  destruct (List.find (hits en) Table.system_events); [reflexivity|].
  cbn [bind]. destruct (List.find (hits tn) Table.tools); reflexivity.
Qed.

Lemma find_match_system m name p :
  m !! Keys.event = Some (JStr name) ->
  List.find (hits name) Table.system_events = Some p ->
  find_match (JObj m) = Ok (pair_of p).
Proof.
  intros He Hp. unfold find_match. cbn [py_get bind].
  fold Keys.event. rewrite He, first_match_str, Hp. reflexivity.
Qed.

(** C1: on a shell-executor pre-execution event ([tool_name] is "Bash",
    [hook_event_name] is "PreToolUse") whose command is the text [cmd],
    [find_match] returns the sound and voice key of the rule selected
    among the shell-command rules: the rule matches a prefix of [cmd]
    case-insensitively, no matching rule has a larger priority, and every
    matching rule declared earlier has a strictly smaller one, so that of
    several matching rules of largest priority the earliest is taken. For
    the command "git commit -m x" that is the [git_commit] rule (sound
    "commit", priority 95) and not the catch-all. *)
Theorem C1_shell_rule_by_priority m cmd :
  shell_pre_event m ->
  command_of (JObj m) = Ok (JStr cmd) ->
  (exists p,
      selected Table.bash_commands cmd p
      /\ matches_prefix (compile (regex p)) cmd
      /\ (forall q, In q Table.bash_commands -> hits cmd q = true ->
                    (priority q <= priority p)%Z)
      /\ find_match (JObj m) = Ok (Some (sound p), Some (voice_key p)))
  /\ (cmd = py "git commit -m x" ->
      find_match (JObj m) = Ok (Some (py "commit"), Some (py "git_commit"))).
Proof.
  intros Hev Hc. rewrite (find_match_shell m cmd Hev Hc). split.
  - destruct (List.filter (hits cmd) Table.bash_commands) as [|x l] eqn:Hf.
    + exfalso. exact (shell_filter_nonempty cmd Hf).
    + pose proof (max_of_filter_selected _ _ _ _ Hf) as Hsel.
      exists (max_from x l). split; [exact Hsel|].
      destruct Hsel as (before & after & Heq & Hp & Hb & Ha).
      split; [apply re_match_spec; exact Hp|]. split; [|reflexivity].
      intros q Hq Hhit. rewrite Heq in Hq.
      apply in_app_or in Hq. destruct Hq as [Hq|[<-|Hq]].
      * apply Z.lt_le_incl. exact (Hb q Hq Hhit).
      * apply Z.le_refl.
      * exact (Ha q Hq Hhit).
  - intros ->. vm_compute. reflexivity.
Qed.

Lemma C1_witness :
  find_match (JObj (Sample.shell "git commit -m x"))
  = Ok (Some (py "commit"), Some (py "git_commit")).
Proof.
  refine (proj2 (C1_shell_rule_by_priority
                   (Sample.shell "git commit -m x") (py "git commit -m x")
                   _ _) eq_refl).
  - split; vm_compute; reflexivity.
  - vm_compute. reflexivity.
Defined.

(** C4: the shell-command category holds a catch-all rule of priority 0
    that matches every text, and therefore [find_match] returns a pair of
    a sound and a voice key, not the null directive, on every
    shell-executor pre-execution event whose command is text; when no
    other rule matches the command the pair is the one of the
    catch-all. *)
Theorem C4_shell_event_never_null m cmd :
  shell_pre_event m ->
  command_of (JObj m) = Ok (JStr cmd) ->
  (In Table.catch_all Table.bash_commands
   /\ priority Table.catch_all = 0%Z
   /\ forall text, hits text Table.catch_all = true)
  /\ (exists snd key, find_match (JObj m) = Ok (Some snd, Some key))
  /\ ((forall q, In q Table.bash_commands -> q <> Table.catch_all ->
                 hits cmd q = false) ->
      find_match (JObj m) = Ok (Some (py "bash"), Some (py "Bash"))).
Proof.
  intros Hev Hc. split.
  { split; [apply catch_all_declared|]. split; [reflexivity|].
    apply catch_all_hits. }
  rewrite (find_match_shell m cmd Hev Hc).
  destruct (List.filter (hits cmd) Table.bash_commands) as [|x l] eqn:Hf.
  { exfalso. exact (shell_filter_nonempty cmd Hf). }
  split; [eexists _, _; reflexivity|].
  intros Honly.
  destruct (max_of_filter_selected _ _ _ _ Hf) as (before & after & Heq & Hhit & _).
  assert (Hin : In (max_from x l) Table.bash_commands).
  { rewrite Heq. apply in_or_app. right. left. reflexivity. }
  assert (Hall : Forall (fun q => q = Table.catch_all \/ q <> Table.catch_all)
                        Table.bash_commands).
  { unfold Table.bash_commands.
    repeat (apply Forall_cons; split;
            [first [ right; intros H; vm_compute in H; discriminate H
                   | left; reflexivity ] |]).
    apply Forall_nil. exact I. }
  rewrite Forall_forall in Hall.
  destruct (Hall _ (proj2 (list_elem_of_In _ _) Hin)) as [->|Hne].
  - vm_compute. reflexivity.
  - rewrite (Honly _ Hin Hne) in Hhit. discriminate Hhit.
Qed.

Lemma C4_witness :
  exists snd key,
    find_match (JObj (Sample.shell "ls -la")) = Ok (Some snd, Some key).
Proof.
  refine (proj1 (proj2 (C4_shell_event_never_null
                          (Sample.shell "ls -la") (py "ls -la") _ _))).
  - split; vm_compute; reflexivity.
  - vm_compute. reflexivity.
Defined.

(** C5: when [hook_event_name] is text that a system-event rule matches
    (a case-insensitive match of a prefix, the first such rule in table
    order), [find_match] returns the sound and voice key of that rule,
    whatever [tool_name] is: any value, of any type, or none. *)
Theorem C5_system_event_first m name p (tool_name : json) :
  m !! Keys.event = Some (JStr name) ->
  List.find (hits name) Table.system_events = Some p ->
  find_match (JObj m) = Ok (Some (sound p), Some (voice_key p))
  /\ find_match (JObj (<[Keys.tool := tool_name]> m))
     = Ok (Some (sound p), Some (voice_key p))
  /\ find_match (JObj (delete Keys.tool m))
     = Ok (Some (sound p), Some (voice_key p)).
Proof.
  intros He Hp. split; [|split].
  - exact (find_match_system m name p He Hp).
  - apply (find_match_system _ name p); [|exact Hp].
    rewrite lookup_insert_ne; [exact He|].
    intros E. exact (keys_event_tool (eq_sym E)).
  - apply (find_match_system _ name p); [|exact Hp].
    rewrite lookup_delete_ne; [exact He|].
    intros E. exact (keys_event_tool (eq_sym E)).
Qed.

Lemma C5_witness :
  find_match (JObj Sample.stop) = Ok (Some (py "complete"), Some (py "Stop")).
Proof.
  refine (proj1 (C5_system_event_first Sample.stop (py "Stop")
                   (Table.rule "Stop" "complete" "Stop" 100 "Task completed")
                   JNull _ _)).
  - vm_compute. reflexivity.
  - vm_compute. reflexivity.
Defined.

End Claims_matching.

(** ** Malformed payloads *)

Section Claims_payloads.

Implicit Types (m mi : gmap pystr json).

(** [find_match] sees a mapping only through three reads. *)
Lemma find_match_ext m m' :
  field m Keys.event = field m' Keys.event ->
  field m Keys.tool = field m' Keys.tool ->
  command_of (JObj m) = command_of (JObj m') ->
  find_match (JObj m) = find_match (JObj m').
Proof.
  unfold field, find_match. cbn [py_get bind].
  fold Keys.event Keys.tool. intros -> -> ->. reflexivity.
Qed.

Lemma command_of_obj m :
  command_of (JObj m) =
  match m !! Keys.input with
  | Some tool_input => py_get tool_input Keys.command (JStr (py ""))
  | None => Ok (JStr (py ""))
  end.
Proof.
  unfold command_of. cbn [py_get bind]. fold Keys.input Keys.command.
  destruct (m !! Keys.input); [reflexivity|].
  cbn [py_get]. rewrite lookup_empty. reflexivity.
Qed.

Lemma text_or_missing_field m key :
  text_or_missing (m !! key) -> exists s, field m key = JStr s.
Proof.
  unfold field. destruct (m !! key) as [[]|]; cbn; intros H;
    try contradiction; eexists; reflexivity.
Qed.

Lemma well_typed_command m :
  well_typed m -> exists cmd, command_of (JObj m) = Ok (JStr cmd).
Proof.
  intros (_ & _ & Hi). rewrite command_of_obj.
  destruct (m !! Keys.input) as [[]|]; try contradiction.
  - cbn [py_get]. destruct (_ !! Keys.command) as [[]|]; cbn in Hi;
      try contradiction; eexists; reflexivity.
  - eexists; reflexivity.
Qed.

Lemma find_match_fields m :
  find_match (JObj m)
  = let event_name := field m Keys.event in
    let tool_name := field m Keys.tool in
    let* sys := first_match Table.system_events event_name in
    match sys with
    | Some p => Ok (pair_of p)
    | None =>
      let* tl := first_match Table.tools tool_name in
      match tl with
      | Some p => Ok (pair_of p)
      | None =>
        if eq_str tool_name (py "Bash") && eq_str event_name (py "PreToolUse")
        then
          let* command := command_of (JObj m) in
          let* ms := collect Table.bash_commands command in
          match ms with
          | [] => Ok (None, None)
          | x :: l => Ok (pair_of (max_from x l))
          end
        else Ok (None, None)
      end
    end.
Proof. reflexivity. Qed.

Lemma system_events_some : Table.system_events <> [].
Proof. discriminate. Qed.

Lemma tools_some : Table.tools <> [].
Proof. discriminate. Qed.

Lemma bash_commands_some : Table.bash_commands <> [].
Proof. discriminate. Qed.

Lemma collect_not_str ps x :
  (forall s, x <> JStr s) -> ps <> [] -> collect ps x = Raise TypeError.
Proof.
  intros Hx Hps. destruct ps as [|p ps]; [congruence|].
  destruct x; try reflexivity. exfalso. exact (Hx _ eq_refl).
Qed.

Lemma is_text_false x : is_text x = false -> forall s, x <> JStr s.
Proof. intros H s ->. discriminate H. Qed.

Lemma is_text_true x : is_text x = true -> exists s, x = JStr s.
Proof. destruct x; try discriminate. eauto. Qed.

(** When [find_match] raises on a mapping. *)
Lemma find_match_raises_iff m :
  raises (find_match (JObj m))
  <-> is_text (field m Keys.event) = false
      \/ (exists en, field m Keys.event = JStr en
            /\ List.find (hits en) Table.system_events = None
            /\ is_text (field m Keys.tool) = false)
      \/ (field m Keys.event = JStr (py "PreToolUse")
          /\ field m Keys.tool = JStr (py "Bash")
          /\ forall cmd, command_of (JObj m) <> Ok (JStr cmd)).
Proof.
  rewrite find_match_fields. cbv zeta.
  destruct (is_text (field m Keys.event)) eqn:Hte.
  2:{ rewrite (first_match_not_str _ _ (is_text_false _ Hte) system_events_some).
      split; [left; reflexivity | intros _; eexists; reflexivity]. }
  destruct (is_text_true _ Hte) as [en Hen]. rewrite Hen, first_match_str.
  cbn [bind].
  destruct (List.find (hits en) Table.system_events) as [p|] eqn:Hsys.
  { split; [intros [e H]; discriminate H|].
    intros [H|[(en' & E & H & _)|(E & _)]]; [discriminate H| |].
    - injection E as <-. congruence.
    - injection E as ->. rewrite pre_tool_use_no_system_rule in Hsys.
      discriminate Hsys. }
  destruct (is_text (field m Keys.tool)) eqn:Htt.
  2:{ rewrite (first_match_not_str _ _ (is_text_false _ Htt) tools_some).
      split; [|intros _; eexists; reflexivity].
      intros _. right. left. exists en. auto. }
  destruct (is_text_true _ Htt) as [tn Htn]. rewrite Htn, first_match_str.
  cbn [bind eq_str].
  destruct (List.find (hits tn) Table.tools) as [p|] eqn:Htl.
  { split; [intros [e H]; discriminate H|].
    intros [H|[(en' & _ & _ & H)|(_ & E & _)]]; try discriminate H.
    injection E as ->. rewrite bash_no_tool_rule in Htl. discriminate Htl. }
  unfold PyStr.eqb.
  destruct (bool_decide_reflect (tn = py "Bash")) as [->|Hnb];
    [destruct (bool_decide_reflect (en = py "PreToolUse")) as [->|Hnp]|];
    cbn [andb].
  - destruct (command_of (JObj m)) as [c|e] eqn:Hc; cbn [bind].
    + destruct (is_text c) eqn:Htc.
      * destruct (is_text_true _ Htc) as [cmd ->]. rewrite collect_str.
        cbn [bind]. split.
        -- intros [e H]. destruct (List.filter _ _); discriminate H.
        -- intros [H|[(en' & _ & _ & H)|(_ & _ & H)]]; try discriminate H.
           exfalso. exact (H cmd eq_refl).
      * rewrite (collect_not_str _ _ (is_text_false _ Htc) bash_commands_some).
        split; [|intros _; eexists; reflexivity].
        intros _. right. right. repeat split.
        intros cmd E. injection E as ->. discriminate Htc.
    + split; [|intros _; eexists; reflexivity].
      intros _. right. right. repeat split. intros cmd E. discriminate E.
  - split; [intros [e H]; discriminate H|].
    intros [H|[(en' & _ & _ & H)|(E & _)]]; try discriminate H.
    injection E as ->. exfalso. exact (Hnp eq_refl).
  - split; [intros [e H]; discriminate H|].
    intros [H|[(en' & _ & _ & H)|(_ & E & _)]]; try discriminate H.
    injection E as ->. exfalso. exact (Hnb eq_refl).
Qed.

(** The command cannot be read as text exactly when [tool_input] is
    there and is no mapping, or its [command] is there and is no
    text. *)
Lemma command_unreadable_spec m :
  command_unreadable m <-> forall cmd, command_of (JObj m) <> Ok (JStr cmd).
Proof.
  unfold command_unreadable. rewrite command_of_obj.
  destruct (m !! Keys.input) as [ti|].
  2:{ split; [intros [] | intros H; exact (H _ eq_refl)]. }
  destruct ti as [| | | | | |mi];
    try (cbn [py_get]; split; [intros _ cmd E; discriminate E | intros _; exact I]).
  cbn [py_get]. destruct (mi !! Keys.command) as [c|].
  2:{ split; [intros [] | intros H; exact (H _ eq_refl)]. }
  split.
  - intros Hc cmd E. injection E as ->. discriminate Hc.
  - intros H. destruct c; try reflexivity. exfalso. exact (H _ eq_refl).
Qed.

Lemma py_get_raises d key dflt e :
  py_get d key dflt = Raise e -> e = AttributeError.
Proof. destruct d; cbn; congruence. Qed.

Lemma matches_raises p x e : matches p x = Raise e -> e = TypeError.
Proof. destruct x; cbn; congruence. Qed.

Lemma first_match_raises ps x e :
  first_match ps x = Raise e -> e = TypeError.
Proof.
  induction ps as [|p ps IH]; cbn [first_match]; [discriminate|].
  destruct (matches p x) as [[]|e'] eqn:Hm; cbn [bind].
  - discriminate.
  - exact IH.
  - intros H. injection H as <-. exact (matches_raises _ _ _ Hm).
Qed.

Lemma collect_raises ps x e : collect ps x = Raise e -> e = TypeError.
Proof.
  induction ps as [|p ps IH]; cbn [collect]; [discriminate|].
  destruct (matches p x) as [b|e'] eqn:Hm; cbn [bind].
  - destruct (collect ps x); cbn [bind]; [discriminate | exact IH].
  - intros H. injection H as <-. exact (matches_raises _ _ _ Hm).
Qed.

(** The matcher raises nothing but [AttributeError] and [TypeError]. *)
Lemma find_match_raises event_data e :
  find_match event_data = Raise e -> e = AttributeError \/ e = TypeError.
Proof.
  unfold find_match, command_of.
  destruct (py_get event_data (py "hook_event_name") _) as [en|e1] eqn:H1;
    cbn [bind]; [|intros H; injection H as <-; left; exact (py_get_raises _ _ _ _ H1)].
  destruct (py_get event_data (py "tool_name") _) as [tn|e2] eqn:H2;
    cbn [bind]; [|intros H; injection H as <-; left; exact (py_get_raises _ _ _ _ H2)].
  destruct (first_match Table.system_events en) as [[p|]|e3] eqn:H3;
    cbn [bind]; [discriminate| |intros H; injection H as <-; right;
                                 exact (first_match_raises _ _ _ H3)].
  destruct (first_match Table.tools tn) as [[p|]|e4] eqn:H4;
    cbn [bind]; [discriminate| |intros H; injection H as <-; right;
                                 exact (first_match_raises _ _ _ H4)].
  destruct (_ && _); [|discriminate].
  destruct (py_get event_data (py "tool_input") _) as [ti|e5] eqn:H5;
    cbn [bind]; [|intros H; injection H as <-; left; exact (py_get_raises _ _ _ _ H5)].
  destruct (py_get ti (py "command") _) as [c|e6] eqn:H6;
    cbn [bind]; [|intros H; injection H as <-; left; exact (py_get_raises _ _ _ _ H6)].
  destruct (collect Table.bash_commands c) as [[|x l]|e7] eqn:H7;
    cbn [bind]; [discriminate|discriminate|].
  intros H; injection H as <-; right; exact (collect_raises _ _ _ H7).
Qed.

Lemma well_typed_reads m : well_typed m -> ~ ill_typed_read m.
Proof.
  intros (He & Ht & Hi).
  destruct (text_or_missing_field _ _ He) as [en Hen].
  destruct (text_or_missing_field _ _ Ht) as [tn Htn].
  intros [H|[(en' & _ & _ & H)|(_ & _ & H)]].
  - rewrite Hen in H. discriminate H.
  - rewrite Htn in H. discriminate H.
  - unfold command_unreadable in H.
    destruct (m !! Keys.input) as [[| | | | | |mi]|]; try contradiction.
    destruct (mi !! Keys.command) as [[]|]; cbn in Hi; try contradiction;
      discriminate H.
Qed.

(** C2, as the code has it. On a payload that is a mapping [find_match]
    returns a directive unless one of its reads meets a field of a type
    it cannot use, and then it raises [TypeError] or [AttributeError]:
    [hook_event_name] is there and is no text; or no system rule matches
    the event and [tool_name] is there and is no text; or the event is
    exactly "PreToolUse" with tool exactly "Bash" and [tool_input] is
    there and is no mapping, or its [command] is there and is no text.
    So on a mapping in which [hook_event_name], [tool_name] and
    [command] are text and [tool_input] is a mapping, each of them if
    present, it returns a directive. An absent field is read as the
    empty string (an absent [tool_input] as the empty mapping): the
    result is that of the payload with the field filled in so. On a
    payload that is no mapping it raises [AttributeError]. *)
Theorem C2_raises_only_on_ill_typed_read m :
  (raises (find_match (JObj m)) <-> ill_typed_read m)
  /\ ((exists d, find_match (JObj m) = Ok d) <-> ~ ill_typed_read m)
  /\ (forall e, find_match (JObj m) = Raise e ->
                e = TypeError \/ e = AttributeError)
  /\ (well_typed m -> exists d, find_match (JObj m) = Ok d)
  /\ (m !! Keys.event = None ->
      find_match (JObj m)
      = find_match (JObj (<[Keys.event := JStr (py "")]> m)))
  /\ (m !! Keys.tool = None ->
      find_match (JObj m)
      = find_match (JObj (<[Keys.tool := JStr (py "")]> m)))
  /\ (m !! Keys.input = None ->
      find_match (JObj m) = find_match (JObj (<[Keys.input := JObj ∅]> m)))
  /\ (forall mi, m !! Keys.input = Some (JObj mi) ->
      mi !! Keys.command = None ->
      find_match (JObj m)
      = find_match
          (JObj (<[Keys.input := JObj (<[Keys.command := JStr (py "")]> mi)]> m)))
  /\ (forall x, (forall m', x <> JObj m') ->
                find_match x = Raise AttributeError).
Proof.
  assert (Hiff : raises (find_match (JObj m)) <-> ill_typed_read m).
  { rewrite find_match_raises_iff. unfold ill_typed_read.
    rewrite command_unreadable_spec. reflexivity. }
  assert (Hret : (exists d, find_match (JObj m) = Ok d) <-> ~ ill_typed_read m).
  { rewrite <- Hiff. unfold raises.
    destruct (find_match (JObj m)) as [d|e]; split.
    - intros _ [e H]. discriminate H.
    - intros _. exists d. reflexivity.
    - intros [d H]. discriminate H.
    - intros H. exfalso. apply H. exists e. reflexivity. }
  split; [exact Hiff|]. split; [exact Hret|]. split.
  { intros e H. destruct (find_match_raises _ _ H); auto. }
  split.
  { intros Hwt. apply Hret. exact (well_typed_reads m Hwt). }
  pose proof keys_event_tool as Eet. pose proof keys_event_input as Eei.
  pose proof keys_tool_input as Eti.
  repeat split.
  - intros Hn. apply find_match_ext; unfold field; rewrite ?command_of_obj.
    + rewrite lookup_insert_eq, Hn. reflexivity.
    + rewrite lookup_insert_ne by exact Eet. reflexivity.
    + rewrite lookup_insert_ne by exact Eei. reflexivity.
  - intros Hn. apply find_match_ext; unfold field; rewrite ?command_of_obj.
    + rewrite lookup_insert_ne by (intros E; exact (Eet (eq_sym E))). reflexivity.
    + rewrite lookup_insert_eq, Hn. reflexivity.
    + rewrite lookup_insert_ne by exact Eti. reflexivity.
  - intros Hn. apply find_match_ext; unfold field; rewrite ?command_of_obj.
    + rewrite lookup_insert_ne by (intros E; exact (Eei (eq_sym E))). reflexivity.
    + rewrite lookup_insert_ne by (intros E; exact (Eti (eq_sym E))). reflexivity.
    + rewrite lookup_insert_eq, Hn. cbn [py_get]. rewrite lookup_empty. reflexivity.
  - intros mi Hi Hn. apply find_match_ext; unfold field; rewrite ?command_of_obj.
    + rewrite lookup_insert_ne by (intros E; exact (Eei (eq_sym E))). reflexivity.
    + rewrite lookup_insert_ne by (intros E; exact (Eti (eq_sym E))). reflexivity.
    + rewrite lookup_insert_eq, Hi. cbn [py_get].
      rewrite lookup_insert_eq, Hn. reflexivity.
  - intros x Hx. destruct x; try reflexivity. exfalso. exact (Hx _ eq_refl).
Qed.

Lemma C2_witness :
  (exists d, find_match (JObj (Sample.shell "make all")) = Ok d)
  /\ find_match (JObj Sample.event_only)
     = find_match (JObj (<[Keys.tool := JStr (py "")]> Sample.event_only))
  /\ find_match (JObj Sample.event_only)
     = find_match (JObj (<[Keys.input := JObj ∅]> Sample.event_only))
  /\ find_match (JArr []) = Raise AttributeError.
Proof.
  split; [|split; [|split]].
  - refine (proj1 (proj2 (proj2 (proj2
      (C2_raises_only_on_ill_typed_read (Sample.shell "make all"))))) _).
    vm_compute. tauto.
  - refine (proj1 (proj2 (proj2 (proj2 (proj2 (proj2
      (C2_raises_only_on_ill_typed_read Sample.event_only)))))) _).
    vm_compute. reflexivity.
  - refine (proj1 (proj2 (proj2 (proj2 (proj2 (proj2 (proj2
      (C2_raises_only_on_ill_typed_read Sample.event_only))))))) _).
    vm_compute. reflexivity.
  - refine (proj2 (proj2 (proj2 (proj2 (proj2 (proj2 (proj2 (proj2
      (C2_raises_only_on_ill_typed_read ∅)))))))) (JArr []) _).
    intros m' E. discriminate E.
Defined.

(** C2 fails as stated: a [hook_event_name] that is a number makes
    [re.match] raise [TypeError], a [tool_input] that is text has no
    [get] and raises [AttributeError], a [command] that is a list raises
    [TypeError], and a payload that is a list raises [AttributeError]. *)
Lemma C2_counterexample :
  find_match Sample.numeric_event_name = Raise TypeError
  /\ find_match Sample.text_tool_input = Raise AttributeError
  /\ find_match Sample.list_command = Raise TypeError
  /\ find_match (JArr []) = Raise AttributeError.
Proof. repeat split; vm_compute; reflexivity. Qed.

End Claims_payloads.

(** ** The description table *)

Section Claims_descriptions.

Lemma all_rules_described : forallb described all_rules = true.
Proof. vm_compute. reflexivity. Qed.

Lemma first_match_from ps x p :
  first_match ps x = Ok (Some p) -> In p ps.
Proof.
  induction ps as [|a ps IH]; cbn [first_match]; [discriminate|].
  destruct (matches a x) as [[]|]; cbn [bind]; intros H.
  - left. congruence.
  - right. exact (IH H).
  - discriminate H.
Qed.

Lemma collect_from ps x ms :
  collect ps x = Ok ms -> forall p, In p ms -> In p ps.
Proof.
  revert ms. induction ps as [|a ps IH]; cbn [collect]; intros ms H p Hp.
  - injection H as <-. exact Hp.
  - destruct (matches a x) as [b|]; cbn [bind] in H; [|discriminate H].
    destruct (collect ps x) as [rest|]; cbn [bind] in H; [|discriminate H].
    injection H as <-. destruct b.
    + destruct Hp as [<-|Hp]; [left; reflexivity | right; exact (IH _ eq_refl _ Hp)].
    + right. exact (IH _ eq_refl _ Hp).
Qed.

Lemma max_from_in best l : In (max_from best l) (best :: l).
Proof.
  revert best. induction l as [|x l IH]; intros best; [left; reflexivity|].
  cbn [max_from]. destruct (_ <? _)%Z.
  - right. apply IH.
  - destruct (IH best) as [H|H]; [left; exact H | right; right; exact H].
Qed.

(** Every directive comes from a rule of the table, or is null. *)
Lemma find_match_from_table event_data d :
  find_match event_data = Ok d ->
  d = (None, None) \/ exists p, In p all_rules /\ d = pair_of p.
Proof.
  unfold find_match, all_rules.
  destruct (py_get event_data _ _) as [en|]; cbn [bind]; [|discriminate].
  destruct (py_get event_data _ _) as [tn|]; cbn [bind]; [|discriminate].
  destruct (first_match Table.system_events en) as [[p|]|] eqn:Hs;
    cbn [bind]; [| |discriminate].
  { intros H. injection H as <-. right. exists p. split; [|reflexivity].
    apply in_or_app. left. exact (first_match_from _ _ _ Hs). }
  destruct (first_match Table.tools tn) as [[p|]|] eqn:Ht;
    cbn [bind]; [| |discriminate].
  { intros H. injection H as <-. right. exists p. split; [|reflexivity].
    apply in_or_app. right. apply in_or_app. left.
    exact (first_match_from _ _ _ Ht). }
  destruct (_ && _); [|intros H; injection H as <-; left; reflexivity].
  destruct (command_of event_data) as [c|]; cbn [bind]; [|discriminate].
  destruct (collect Table.bash_commands c) as [[|x l]|] eqn:Hc;
    cbn [bind]; [| |discriminate].
  { intros H; injection H as <-; left; reflexivity. }
  intros H. injection H as <-. right. exists (max_from x l).
  split; [|reflexivity].
  apply in_or_app. right. apply in_or_app. right.
  exact (collect_from _ _ _ Hc _ (max_from_in x l)).
Qed.

(** C10: every voice key of every rule of the pattern table (system
    events, tools and shell commands) has an entry in
    [JAPANESE_EVENT_DESCRIPTIONS]; hence for every voice key that
    [find_match] returns the lookup with the raw key as its default finds
    the entry, and the default is not used. *)
Theorem C10_voice_keys_described :
  (forall p, In p all_rules ->
     is_Some (JAPANESE_EVENT_DESCRIPTIONS !! voice_key p))
  /\ (forall event_data snd key,
        find_match event_data = Ok (snd, Some key) ->
        exists text, JAPANESE_EVENT_DESCRIPTIONS !! key = Some text
                     /\ describe key = text).
Proof.
  assert (Hall : forall p, In p all_rules ->
                   is_Some (JAPANESE_EVENT_DESCRIPTIONS !! voice_key p)).
  { intros p Hp. pose proof all_rules_described as H.
    rewrite forallb_forall in H. specialize (H p Hp).
    unfold described in H. apply bool_decide_eq_true in H. exact H. }
  split; [exact Hall|].
  intros event_data snd key H.
  destruct (find_match_from_table _ _ H) as [E|(p & Hp & E)]; [discriminate E|].
  injection E as _ ->. destruct (Hall p Hp) as [text Ht].
  exists text. split; [exact Ht|]. unfold describe. rewrite Ht. reflexivity.
Qed.

End Claims_descriptions.

(** ** Sound names and the player registry *)

Section Claims_audio.

Import AudioManager.

Lemma starts_with_spec pre s :
  starts_with pre s = true <-> exists b, s = pre ++ b.
Proof.
  revert s. induction pre as [|a pre IH]; intros s.
  - split; [exists s; reflexivity | reflexivity].
  - destruct s as [|c s]; cbn [starts_with].
    + split; [discriminate | intros [b Hb]; discriminate Hb].
    + rewrite andb_true_iff, N.eqb_eq, IH. split.
      * intros [-> [b ->]]. exists b. reflexivity.
      * intros [b Hb]. injection Hb as -> ->. split; [reflexivity|eauto].
Qed.

Lemma contains_spec needle hay :
  contains needle hay = true <-> substring needle hay.
Proof.
  unfold substring. induction hay as [|c hay IH].
  - cbn [contains]. rewrite orb_false_r, starts_with_spec. split.
    + intros [b Hb]. exists [], b. exact Hb.
    + intros (a & b & H). destruct a; [exists b; exact H | discriminate H].
  - cbn [contains]. rewrite orb_true_iff, starts_with_spec, IH. split.
    + intros [[b Hb]|(a & b & ->)].
      * exists [], b. exact Hb.
      * exists (c :: a), b. reflexivity.
    + intros (a & b & H). destruct a as [|x a].
      * left. exists b. exact H.
      * right. injection H as _ ->. exists a, b. reflexivity.
Qed.

(** C3: a sound name that contains [/], [\] or [..] is rejected by
    [play_sound]: the call returns [False], raises nothing, leaves the
    cache of looked-up files as it was and does nothing but write one
    line to the log; in particular it asks the file system nothing and
    starts no player. *)
Theorem C3_path_like_name_rejected w self sound_name :
  substring (py "/") sound_name \/ substring (py "\") sound_name
  \/ substring (py "..") sound_name ->
  play_sound w self sound_name
  = (false, self, [Log ERROR (py "Invalid sound name: " ++ sound_name)])
  /\ forallb (fun e => negb (is_lookup e) && negb (is_delivery e))
             (snd (play_sound w self sound_name)) = true.
Proof.
  intros H.
  assert (Hinv : invalid_name sound_name = true).
  { unfold invalid_name. rewrite !orb_true_iff, !contains_spec. tauto. }
  unfold play_sound. rewrite Hinv. split; reflexivity.
Qed.

Lemma C3_witness :
  fst (fst (play_sound quiet_world (sample_manager "sound" false)
                       (py "../../etc/passwd"))) = false.
Proof.
  refine (f_equal (fun x => fst (fst x))
            (proj1 (C3_path_like_name_rejected quiet_world
                      (sample_manager "sound" false) (py "../../etc/passwd") _))).
  left. exists (py ".."), (py "../etc/passwd"). vm_compute. reflexivity.
Defined.

Lemma probe_sound_sub classes w p :
  In p (fst (probe_sound classes w)) -> In p classes.
Proof.
  induction classes as [|c classes IH]; cbn [probe_sound]; [intros []|].
  destruct (SoundPlayer.is_available c w) as [ok t1].
  destruct (probe_sound classes w) as [players t2]. cbn [fst] in IH.
  destruct ok; cbn [fst].
  - intros [<-|H]; [left; reflexivity | right; exact (IH H)].
  - intros H. right. exact (IH H).
Qed.

Lemma probe_sound_keeps classes w p :
  In p classes -> fst (SoundPlayer.is_available p w) = true ->
  In p (fst (probe_sound classes w)).
Proof.
  induction classes as [|c classes IH]; [intros []|].
  intros Hin Hav. cbn [probe_sound].
  destruct (SoundPlayer.is_available c w) as [ok t1] eqn:Hc.
  destruct (probe_sound classes w) as [players t2]. cbn [fst] in IH.
  destruct Hin as [->|Hin].
  - rewrite Hc in Hav. cbn [fst] in Hav. subst ok. left. reflexivity.
  - destruct ok; cbn [fst]; [right|]; exact (IH Hin Hav).
Qed.

(** C9: after initialisation the list of sound players is never empty,
    in any environment and for any list of player classes: when probing
    keeps no player the system beep is appended, and the probe of the
    system beep always answers true, so that the list built from the
    classes of the program always holds it. *)
Theorem C9_sound_players_never_empty :
  (forall classes w, fst (init_sound_players_from classes w) <> [])
  /\ (forall classes w, fst (probe_sound classes w) = [] ->
        fst (init_sound_players_from classes w) = [SystemBeepPlayer])
  /\ (forall w, fst (SoundPlayer.is_available SystemBeepPlayer w) = true)
  /\ (forall w, In SystemBeepPlayer (fst (_init_sound_players w)))
  /\ (forall w cfg, sound_players (fst (AudioManager.init w cfg)) <> []).
Proof.
  assert (H1 : forall classes w, fst (init_sound_players_from classes w) <> []).
  { intros classes w. unfold init_sound_players_from.
    destruct (probe_sound classes w) as [[|p players] t1]; cbn [fst]; discriminate. }
  split; [exact H1|]. split.
  { intros classes w. unfold init_sound_players_from.
    destruct (probe_sound classes w) as [players t1]. cbn [fst].
    intros ->. reflexivity. }
  split; [reflexivity|]. split.
  { intros w. unfold _init_sound_players, init_sound_players_from.
    pose proof (probe_sound_keeps player_classes w SystemBeepPlayer) as Hk.
    destruct (probe_sound player_classes w) as [[|p players] t1]; cbn [fst] in *.
    - left. reflexivity.
    - apply Hk; [right; right; left; reflexivity | reflexivity]. }
  intros w cfg. unfold AudioManager.init.
  pose proof (H1 player_classes w) as Hne. fold (_init_sound_players w) in Hne.
  destruct (_init_sound_players w) as [sp t1].
  destruct (_init_voice_players w) as [vp t2]. exact Hne.
Qed.

End Claims_audio.

(** ** Handling an event *)

Section Claims_handler.

Import HookHandler.

Lemma all_rules_nonempty :
  forallb (fun p => nonempty (sound p) && nonempty (voice_key p)) all_rules
  = true.
Proof. vm_compute. reflexivity. Qed.

(** A directive is null or has both halves, neither of them empty. *)
Lemma find_match_shape event_data d :
  find_match event_data = Ok d ->
  d = (None, None)
  \/ exists s k, d = (Some s, Some k) /\ nonempty s = true /\ nonempty k = true.
Proof.
  intros H. destruct (find_match_from_table _ _ H) as [E|(p & Hp & E)];
    [left; exact E | right].
  pose proof all_rules_nonempty as Hall. rewrite forallb_forall in Hall.
  specialize (Hall p Hp). apply andb_true_iff in Hall.
  exists (sound p), (voice_key p). split; [exact E | exact Hall].
Qed.

Lemma log_event_records w event_data :
  forallb is_record (_log_event w event_data) = true.
Proof. unfold _log_event. destruct (audit_error w); reflexivity. Qed.

(** In test mode the part after matching only writes to the log and
    leaves the handler as it was. *)
Lemma dispatch_test_mode w self sound_name voice_key :
  test_mode (config self) = true ->
  fst (dispatch w self sound_name voice_key) = self
  /\ forallb is_record (snd (dispatch w self sound_name voice_key)) = true.
Proof.
  intros Ht. unfold dispatch, sound_step, voice_step. rewrite Ht.
  destruct (truthy sound_name), (truthy voice_key);
    destruct (PyStr.eqb (mode (config self)) (py "sound"));
    destruct (PyStr.eqb (mode (config self)) (py "voice"));
    destruct (PyStr.eqb (mode (config self)) (py "both"));
    split; reflexivity.
Qed.

(** In test mode the part after matching leaves nothing but lines of the
    log. *)
Lemma dispatch_test_mode_logs w self sound_name voice_key :
  test_mode (config self) = true ->
  forallb is_log (snd (dispatch w self sound_name voice_key)) = true.
Proof.
  intros Ht. unfold dispatch, sound_step, voice_step. rewrite Ht.
  destruct (truthy sound_name), (truthy voice_key);
    destruct (PyStr.eqb (mode (config self)) (py "sound"));
    destruct (PyStr.eqb (mode (config self)) (py "voice"));
    destruct (PyStr.eqb (mode (config self)) (py "both"));
    reflexivity.
Qed.

(** C7, as the code has it: with the test-mode flag set [handle_event]
    begins by appending the event to the audit log (a failure to write
    is put in the log and goes no further), runs the matcher (and raises
    exactly when the matcher raises) and writes to the log what it would
    play and speak; the append to the audit log is the first thing it
    does and all the rest are lines of the log: it looks up no sound
    file, leaves the file cache and the handler unchanged, does not sleep
    and starts no player, whatever the payload and the mode. *)
Theorem C7_test_mode_only_records w self event_data r self' t :
  test_mode (config self) = true ->
  handle_event w self event_data = (r, self', t) ->
  self' = self
  /\ forallb is_record t = true
  /\ forallb (fun e => negb (is_lookup e) && negb (is_delivery e)
                       && negb (is_sleep e)) t = true
  /\ r = (let* _ := find_match event_data in Ok tt)
  /\ (forall s k, find_match event_data = Ok (Some s, Some k) ->
        exists pre,
          t = pre ++ [Log INFO (py "TEST MODE: Would play " ++ s
                                ++ py " and/or speak " ++ k)])
  /\ (exists rest,
        t = AuditAppend event_data :: rest /\ forallb is_log rest = true)
  /\ (forall text, audit_error w = Some text ->
        exists rest,
          t = AuditAppend event_data
              :: Log ERROR (py "Failed to log event: " ++ text) :: rest).
Proof.
  intros Ht H.
  assert (Hrec : forall l, forallb is_record l = true ->
            forallb (fun e => negb (is_lookup e) && negb (is_delivery e)
                              && negb (is_sleep e)) l = true).
  { intros l. rewrite !forallb_forall. intros Hl e He.
    specialize (Hl e He). destruct e; try discriminate Hl; reflexivity. }
  unfold handle_event in H.
  destruct (find_match event_data) as [[sound_name voice_key]|e] eqn:Hfm.
  - destruct (dispatch_test_mode w self sound_name voice_key Ht) as [Hs Hq].
    pose proof (dispatch_test_mode_logs w self sound_name voice_key Ht) as Hl.
    destruct (dispatch w self sound_name voice_key) as [self1 t1] eqn:Hd.
    cbn [fst snd] in Hs, Hq, Hl. injection H as <- <- <-.
    assert (Hall : forallb is_record (_log_event w event_data ++ t1) = true).
    { rewrite forallb_app, log_event_records, Hq. reflexivity. }
    split; [exact Hs|]. split; [exact Hall|]. split; [exact (Hrec _ Hall)|].
    split; [reflexivity|]. split; [|split].
    + intros s k E. injection E as -> ->.
      destruct (find_match_shape _ _ Hfm) as [E|(s' & k' & E & Hs' & Hk')];
        [discriminate E|]. injection E as <- <-.
      revert Hd. unfold dispatch. cbn [truthy fmt]. rewrite Hs', Hk', Ht.
      cbn [negb andb].
      match goal with |- (let '(_, _) := ?X in _) = _ -> _ =>
        destruct X as [self2 t2] end.
      intros E. injection E as _ <-.
      exists (_log_event w event_data ++ t2). rewrite <- app_assoc. reflexivity.
    + unfold _log_event. eexists. split; [reflexivity|].
      rewrite forallb_app, Hl. destruct (audit_error w); reflexivity.
    + intros text Ha. unfold _log_event. rewrite Ha. eexists. reflexivity.
  - injection H as <- <- <-. split; [reflexivity|].
    split; [apply log_event_records|].
    split; [apply Hrec, log_event_records|]. split; [reflexivity|].
    split; [intros s k E; discriminate E|]. split.
    + unfold _log_event. eexists. split; [reflexivity|].
      destruct (audit_error w); reflexivity.
    + intros text Ha. unfold _log_event. rewrite Ha. eexists. reflexivity.
Qed.

Lemma C7_witness :
  exists rest,
    snd (handle_event busy_world (sample_handler "both" true)
                      (JObj Sample.stop))
    = AuditAppend (JObj Sample.stop) :: rest
    /\ forallb is_log rest = true.
Proof.
  refine (proj1 (proj2 (proj2 (proj2 (proj2 (proj2
            (C7_test_mode_only_records busy_world
            (sample_handler "both" true) (JObj Sample.stop)
            (fst (fst (handle_event busy_world (sample_handler "both" true)
                                    (JObj Sample.stop))))
            (snd (fst (handle_event busy_world (sample_handler "both" true)
                                    (JObj Sample.stop))))
            (snd (handle_event busy_world (sample_handler "both" true)
                               (JObj Sample.stop))) _ _))))))).
  - vm_compute. reflexivity.
  - vm_compute. reflexivity.
Defined.

(** C7 fails as stated: in test mode no sound file is looked up. On a
    fresh handler in mode [sound] the event [Stop] resolves to the sound
    "complete", whose file exists; with the flag set the trace holds no
    file-system query and the file cache stays empty, while with the flag
    clear the same event queries the file system and fills the cache. *)
Lemma C7_counterexample :
  test_mode (config (sample_handler "sound" true)) = true
  /\ find_match (JObj Sample.stop) = Ok (Some (py "complete"), Some (py "Stop"))
  /\ (let '(_, self', t) :=
        handle_event busy_world (sample_handler "sound" true) (JObj Sample.stop)
      in existsb is_lookup t = false
         /\ AudioManager.found (audio_manager self') = [])
  /\ (let '(_, self', t) :=
        handle_event busy_world (sample_handler "sound" false) (JObj Sample.stop)
      in existsb is_lookup t = true
         /\ AudioManager.found (audio_manager self')
            = [(py "complete", Some (py "/opt/hooks/sounds/beeps/complete.wav"))]).
Proof. vm_compute. repeat split; reflexivity. Qed.

End Claims_handler.

Section Claims_both.

Import HookHandler.

Variables (w : World) (self : HookHandler.t).

Lemma dispatch_both sound_name voice_key :
  mode (config self) = py "both" ->
  test_mode (config self) = false ->
  truthy sound_name || truthy voice_key = true ->
  snd (dispatch w self sound_name voice_key)
  = (if truthy voice_key
     then speaking (fmt voice_key) :: spoken w self (fmt voice_key) else [])
    ++ (if truthy sound_name
        then playing (fmt sound_name) :: Sleep (1 # 10) :: played w self (fmt sound_name)
        else []).
Proof.
  intros Hm Ht Hany. unfold dispatch, sound_step, voice_step.
  rewrite Hm, Ht.
  replace (PyStr.eqb (py "both") (py "sound")) with false
    by (vm_compute; reflexivity).
  replace (PyStr.eqb (py "both") (py "voice")) with false
    by (vm_compute; reflexivity).
  replace (PyStr.eqb (py "both") (py "both")) with true
    by (vm_compute; reflexivity).
  unfold speaking, playing, spoken, played.
  destruct (truthy sound_name), (truthy voice_key);
    try discriminate Hany; cbn [negb andb];
    try destruct (AudioManager.play_sound _ _ _) as [[? ?] ?];
    cbn [fst snd]; rewrite ?app_nil_r; reflexivity.
Qed.

(** C8, as the code has it: in mode [both] with the test-mode flag
    clear, an event whose directive has a sound and a voice key is
    handled by speaking first and playing second, with a sleep of a tenth
    of a second after the speaking and before the playing: the trace is
    the audit record, the announcement and the trace of [speak_text],
    then the announcement of the sound, the sleep and the trace of
    [play_sound]. Each step depends on its own half only: the voice step
    runs for every voice key that is present, whatever the sound name
    is, and the sound step (with its sleep) for every sound name that is
    present, whatever the voice key is. *)
Theorem C8_both_speaks_then_plays :
  mode (config self) = py "both" ->
  test_mode (config self) = false ->
  (forall event_data s k,
      find_match event_data = Ok (Some s, Some k) ->
      snd (handle_event w self event_data)
      = _log_event w event_data
        ++ speaking k :: spoken w self k
        ++ playing s :: Sleep (1 # 10) :: played w self s)
  /\ (forall sound_name k,
        nonempty k = true ->
        exists rest,
          snd (dispatch w self sound_name (Some k))
          = speaking k :: spoken w self k ++ rest
          /\ (truthy sound_name = false -> rest = []))
  /\ (forall s voice_key,
        nonempty s = true ->
        exists pre,
          snd (dispatch w self (Some s) voice_key)
          = pre ++ playing s :: Sleep (1 # 10) :: played w self s
          /\ (truthy voice_key = false -> pre = [])).
Proof.
  intros Hm Ht. split; [|split].
  - intros event_data s k Hfm. unfold handle_event. rewrite Hfm.
    destruct (find_match_shape _ _ Hfm) as [E|(s' & k' & E & Hs & Hk)];
      [discriminate E|]. injection E as <- <-.
    pose proof (dispatch_both (Some s) (Some k) Hm Ht) as Hd.
    cbn [truthy fmt] in Hd. rewrite Hs, Hk in Hd. specialize (Hd eq_refl).
    destruct (dispatch w self (Some s) (Some k)) as [self1 t1].
    cbn [snd] in *. rewrite Hd. reflexivity.
  - intros sound_name k Hk.
    pose proof (dispatch_both sound_name (Some k) Hm Ht) as Hd.
    cbn [truthy fmt] in Hd. rewrite Hk, orb_true_r in Hd.
    specialize (Hd eq_refl). rewrite Hd. eexists. split; [reflexivity|].
    intros ->. reflexivity.
  - intros s voice_key Hs.
    pose proof (dispatch_both (Some s) voice_key Hm Ht) as Hd.
    cbn [truthy fmt] in Hd. rewrite Hs in Hd. specialize (Hd eq_refl).
    rewrite Hd. eexists. split; [reflexivity|].
    intros ->. reflexivity.
Qed.

End Claims_both.

Section Claims_both_samples.

Import HookHandler.

Lemma C8_witness :
  snd (handle_event busy_world (sample_handler "both" false) (JObj Sample.stop))
  = [ AuditAppend (JObj Sample.stop);
      Log INFO (py "Speaking: タスクが完了しました");
      Popen [AStr (py "espeak"); AStr (py "-s"); AInt 200; AStr (py "-v");
             AStr (py "ja"); AStr (py "タスクが完了しました")];
      Log DEBUG (py "Spoke text using espeak");
      Log INFO (py "Playing sound 'complete' for event");
      Sleep (1 # 10);
      Exists (py "/opt/hooks/sounds/beeps/complete.wav");
      Popen [AStr (py "play"); AStr (py "/opt/hooks/sounds/beeps/complete.wav");
             AStr (py "vol"); AFloat 1];
      Log DEBUG (py "Played complete using sox") ].
Proof.
  refine (eq_trans
            (proj1 (C8_both_speaks_then_plays busy_world
                      (sample_handler "both" false) _ _)
                   (JObj Sample.stop) (py "complete") (py "Stop") _) _).
  - vm_compute. reflexivity.
  - vm_compute. reflexivity.
  - vm_compute. reflexivity.
  - vm_compute. reflexivity.
Defined.

(** C8 fails as stated: in mode [both] with the test-mode flag set, an
    event whose directive has both halves is neither spoken nor played
    and there is no sleep; the trace holds the audit record and three
    lines of the log. *)
Lemma C8_counterexample :
  mode (config (sample_handler "both" true)) = py "both"
  /\ find_match (JObj Sample.stop) = Ok (Some (py "complete"), Some (py "Stop"))
  /\ handle_event busy_world (sample_handler "both" true) (JObj Sample.stop)
     = (Ok tt, sample_handler "both" true,
        [ AuditAppend (JObj Sample.stop);
          Log INFO (py "Speaking: タスクが完了しました");
          Log INFO (py "Playing sound 'complete' for event");
          Log INFO (py "TEST MODE: Would play complete and/or speak Stop") ])
  /\ existsb (fun e => is_delivery e || is_sleep e)
       (snd (handle_event busy_world (sample_handler "both" true)
                          (JObj Sample.stop))) = false.
Proof. vm_compute. repeat split; reflexivity. Qed.

End Claims_both_samples.

(** ** The exit status *)

Section Claims_exit.

Import Main.



(** C6, where the code departs from it: the exit status is not 0 on
    every fault other than a JSON decode error. On a Linux machine whose
    standard output takes nothing, the event [Stop] in mode [sound] with
    no sound file falls back to the bell; the write fails and is caught,
    the run ends in [sys.exit(0)], and the status of the process is 120.
    Likewise, when the error stream takes nothing, a payload on which the
    matcher raises ends in status 120 although the [except] clause asks
    for 0. In both runs standard input is well-formed JSON. *)
Theorem C6_exit_status_with_unwritable_stream :
  (stdin full_stdout_world = inl (JObj Sample.stop)
   /\ In Bell (snd (main full_stdout_world))
   /\ fst (main full_stdout_world) = 0%Z
   /\ exit_status full_stdout_world = 120%Z)
  /\ (stdin full_stderr_world = inl Sample.numeric_event_name
      /\ In (Stderr (py "Unexpected error: ")) (snd (main full_stderr_world))
      /\ fst (main full_stderr_world) = 0%Z
      /\ exit_status full_stderr_world = 120%Z).
Proof.
  split; (split; [reflexivity|]);
    (split; [vm_compute; tauto|]); split; vm_compute; reflexivity.
Qed.

End Claims_exit.

Section Claims_samples.

Import AudioManager.

Lemma C9_witness :
  fst (init_sound_players_from [AfplaySoundPlayer; SoxSoundPlayer] quiet_world)
  = [SystemBeepPlayer].
Proof.
  refine (proj1 (proj2 C9_sound_players_never_empty)
            [AfplaySoundPlayer; SoxSoundPlayer] quiet_world _).
  vm_compute. reflexivity.
Defined.

Lemma C10_witness :
  exists text,
    JAPANESE_EVENT_DESCRIPTIONS !! py "git_commit" = Some text
    /\ describe (py "git_commit") = text.
Proof.
  refine (proj2 C10_voice_keys_described
            (JObj (Sample.shell "git commit -m x"))
            (Some (py "commit")) (py "git_commit") _).
  vm_compute. reflexivity.
Defined.

End Claims_samples.

(** * Further properties *)

(** ** The registries of players *)

Section Registries.

Import AudioManager.

Lemma probe_sound_filter classes w :
  fst (probe_sound classes w) = List.filter (sound_available w) classes.
Proof.
  induction classes as [|c classes IH]; [reflexivity|].
  cbn [probe_sound List.filter]. unfold sound_available at 1.
  destruct (SoundPlayer.is_available c w) as [ok t1].
  destruct (probe_sound classes w) as [players t2]. cbn [fst] in *.
  destruct ok; cbn [fst]; rewrite IH; reflexivity.
Qed.

Lemma probe_voice_filter classes w :
  fst (probe_voice classes w) = List.filter (voice_available w) classes.
Proof.
  induction classes as [|c classes IH]; [reflexivity|].
  cbn [probe_voice List.filter]. unfold voice_available at 1.
  destruct (VoicePlayer.is_available c w) as [ok t1].
  destruct (probe_voice classes w) as [players t2]. cbn [fst] in *.
  destruct ok; cbn [fst]; rewrite IH; reflexivity.
Qed.

(** X1: the sound players of a manager are the players whose probe
    answers true, in the order of preference of the list of classes, and
    the system beep alone when there is none; for the classes of the
    program these are the available ones of [afplay] and [sox], in that
    order, followed by the system beep. *)
Theorem X1_sound_registry_in_preference_order :
  (forall classes w,
     fst (init_sound_players_from classes w)
     = match List.filter (sound_available w) classes with
       | [] => [SystemBeepPlayer]
       | players => players
       end)
  /\ (forall w,
        fst (_init_sound_players w)
        = List.filter (sound_available w) [AfplaySoundPlayer; SoxSoundPlayer]
          ++ [SystemBeepPlayer]).
Proof.
  assert (H1 : forall classes w,
     fst (init_sound_players_from classes w)
     = match List.filter (sound_available w) classes with
       | [] => [SystemBeepPlayer]
       | players => players
       end).
  { intros classes w. unfold init_sound_players_from.
    rewrite <- probe_sound_filter.
    destruct (probe_sound classes w) as [[|p players] t1]; reflexivity. }
  split; [exact H1|].
  intros w. unfold _init_sound_players. rewrite H1.
  unfold player_classes. cbn [List.filter].
  destruct (sound_available w AfplaySoundPlayer),
           (sound_available w SoxSoundPlayer); reflexivity.
Qed.

Lemma init_voice_players_eq w :
  fst (_init_voice_players w)
  = (if which_ok w (py "say") && PyStr.eqb (platform_system w) (py "Darwin")
     then [MacOSSayVoicePlayer] else [])
    ++ (if which_ok w (py "espeak") then [EspeakVoicePlayer] else []).
Proof.
  unfold _init_voice_players. rewrite probe_voice_filter.
  cbn [List.filter]. unfold voice_available.
  cbn [VoicePlayer.is_available MacOSSayVoicePlayer EspeakVoicePlayer fst].
  destruct (which_ok w (py "say") && _), (which_ok w (py "espeak"));
    reflexivity.
Qed.

(** X2: the voice players of a manager are [macos_say], kept exactly
    when [say] is installed and the platform is Darwin, followed by
    [espeak], kept exactly when it is installed; there is no fallback,
    so the list is empty exactly when neither probe answers true. *)
Theorem X2_voice_registry w :
  fst (_init_voice_players w)
  = (if which_ok w (py "say") && PyStr.eqb (platform_system w) (py "Darwin")
     then [MacOSSayVoicePlayer] else [])
    ++ (if which_ok w (py "espeak") then [EspeakVoicePlayer] else [])
  /\ (fst (_init_voice_players w) = []
      <-> which_ok w (py "say") && PyStr.eqb (platform_system w) (py "Darwin")
          = false
          /\ which_ok w (py "espeak") = false).
Proof.
  rewrite init_voice_players_eq.
  destruct (which_ok w (py "say") && _), (which_ok w (py "espeak"));
    (split; [reflexivity|]); cbn; split;
    first [ discriminate | intros [? ?]; discriminate | tauto ].
Qed.

(** The loops that try one player after the other. *)

Lemma try_players_result w players sound_name sound_path vol :
  fst (try_players w players sound_name sound_path vol)
  = existsb (plays w sound_path vol) players.
Proof.
  induction players as [|p players IH]; [reflexivity|].
  cbn [try_players existsb]. unfold plays at 1.
  destruct (SoundPlayer.play p w sound_path vol) as [ok t1].
  destruct (try_players w players sound_name sound_path vol) as [r t2].
  cbn [fst] in *. destruct ok; cbn [fst orb]; [reflexivity | exact IH].
Qed.

Lemma try_voices_result w players text cfg :
  fst (try_voices w players text cfg) = existsb (speaks w text cfg) players.
Proof.
  induction players as [|p players IH]; [reflexivity|].
  cbn [try_voices existsb]. unfold speaks at 1.
  destruct (VoicePlayer.speak p w text cfg) as [ok t1].
  destruct (try_voices w players text cfg) as [r t2].
  cbn [fst] in *. destruct ok; cbn [fst orb]; [reflexivity | exact IH].
Qed.

Lemma try_voices_first_success w failed p rest text cfg :
  forallb (fun q => negb (speaks w text cfg q)) failed = true ->
  speaks w text cfg p = true ->
  snd (try_voices w (failed ++ p :: rest) text cfg)
  = List.concat (List.map (fun q => snd (VoicePlayer.speak q w text cfg)) failed)
    ++ snd (VoicePlayer.speak p w text cfg)
    ++ [Log DEBUG (py "Spoke text using " ++ VoicePlayer.name p)].
Proof.
  intros Hf Hp. induction failed as [|q failed IH].
  - cbn [app try_voices List.map List.concat]. unfold speaks in Hp.
    destruct (VoicePlayer.speak p w text cfg) as [ok t1]. cbn [fst snd] in *.
    subst ok. reflexivity.
  - cbn [forallb] in Hf. apply andb_true_iff in Hf. destruct Hf as [Hq Hf].
    specialize (IH Hf). cbn [app try_voices List.map List.concat].
    unfold speaks in Hq.
    destruct (VoicePlayer.speak q w text cfg) as [ok t1]. cbn [fst snd] in *.
    destruct ok; [discriminate Hq|].
    destruct (try_voices w (failed ++ p :: rest) text cfg) as [r t2].
    cbn [snd] in *. rewrite IH, <- app_assoc. reflexivity.
Qed.

Lemma try_players_first_success w failed p rest sound_name sound_path vol :
  forallb (fun q => negb (plays w sound_path vol q)) failed = true ->
  plays w sound_path vol p = true ->
  snd (try_players w (failed ++ p :: rest) sound_name sound_path vol)
  = List.concat (List.map (fun q => snd (SoundPlayer.play q w sound_path vol)) failed)
    ++ snd (SoundPlayer.play p w sound_path vol)
    ++ [Log DEBUG (py "Played " ++ sound_name ++ py " using "
                   ++ SoundPlayer.name p)].
Proof.
  intros Hf Hp. induction failed as [|q failed IH].
  - cbn [app try_players List.map List.concat]. unfold plays in Hp.
    destruct (SoundPlayer.play p w sound_path vol) as [ok t1].
    cbn [fst snd] in *. subst ok. reflexivity.
  - cbn [forallb] in Hf. apply andb_true_iff in Hf. destruct Hf as [Hq Hf].
    specialize (IH Hf). cbn [app try_players List.map List.concat].
    unfold plays in Hq.
    destruct (SoundPlayer.play q w sound_path vol) as [ok t1].
    cbn [fst snd] in *. destruct ok; [discriminate Hq|].
    destruct (try_players w (failed ++ p :: rest) sound_name sound_path vol)
      as [r t2].
    cbn [snd] in *. rewrite IH, <- app_assoc. reflexivity.
Qed.

(** X3: [speak_text] returns true exactly when one of the voice players
    of the manager manages to speak the text; with no voice player it
    returns false after one warning in the log and starts nothing. *)
Theorem X3_speak_text_result w self text :
  fst (speak_text w self text)
  = existsb (speaks w text (voice_config (config self))) (voice_players self)
  /\ (voice_players self = [] ->
      speak_text w self text
      = (false, [Log WARNING (py "No voice players available")])).
Proof.
  unfold speak_text. split.
  - destruct (voice_players self) as [|p players] eqn:E; [reflexivity|].
    apply try_voices_result.
  - intros ->. reflexivity.
Qed.

(** X4: [speak_text] stops at the first voice player that succeeds: the
    trace holds what the players before it did, what it did and one line
    of the log, and nothing of the players after it. *)
Theorem X4_speak_text_stops_at_first_success w self text failed p rest :
  voice_players self = failed ++ p :: rest ->
  forallb (fun q => negb (speaks w text (voice_config (config self)) q)) failed
  = true ->
  speaks w text (voice_config (config self)) p = true ->
  speak_text w self text
  = (true,
     List.concat (List.map (fun q => snd (VoicePlayer.speak q w text
                                       (voice_config (config self)))) failed)
     ++ snd (VoicePlayer.speak p w text (voice_config (config self)))
     ++ [Log DEBUG (py "Spoke text using " ++ VoicePlayer.name p)]).
Proof.
  intros E Hf Hp.
  pose proof (try_voices_first_success w failed p rest text _ Hf Hp) as Ht.
  pose proof (try_voices_result w (failed ++ p :: rest) text
                (voice_config (config self))) as Hr.
  unfold speak_text. rewrite E.
  destruct (failed ++ p :: rest) as [|x l] eqn:El.
  { destruct failed; discriminate El. }
  rewrite <- El in *. clear El.
  destruct (try_voices w (failed ++ p :: rest) text _) as [r t].
  cbn [fst snd] in *. subst t. f_equal. rewrite Hr.
  rewrite existsb_app. cbn [existsb]. rewrite Hp. apply orb_true_r.
Qed.

End Registries.

(** ** Looking up sound files *)

Section Lookup.

Import AudioManager.

Implicit Types (c : list (pystr * option pystr)) (k : pystr).

Lemma cache_get_drop c k : cache_get k (cache_drop k c) = None.
Proof.
  induction c as [|[k' v] c IH]; [reflexivity|].
  unfold cache_drop in *. cbn [List.filter fst].
  destruct (PyStr.eqb k' k) eqn:E; cbn [negb]; [exact IH|].
  cbn [cache_get]. rewrite E. exact IH.
Qed.

Lemma cache_drop_absent c k : cache_get k c = None -> cache_drop k c = c.
Proof.
  induction c as [|[k' v] c IH]; [reflexivity|].
  cbn [cache_get]. unfold cache_drop in *. cbn [List.filter fst].
  destruct (PyStr.eqb k' k); [discriminate|]. cbn [negb].
  intros H. rewrite (IH H). reflexivity.
Qed.

Lemma cache_get_take c k n : cache_get k c = None -> cache_get k (take n c) = None.
Proof.
  revert n. induction c as [|[k' v] c IH]; intros [|n]; try reflexivity.
  cbn [cache_get firstn]. destruct (PyStr.eqb k' k); [discriminate|]. apply IH.
Qed.

Lemma cache_get_keys c k : cache_get k c = None <-> ~ In k (List.map fst c).
Proof.
  induction c as [|[k' v] c IH]; cbn [cache_get List.map fst In]; [tauto|].
  unfold PyStr.eqb. destruct (bool_decide_reflect (k' = k)) as [->|Hne].
  - split; [discriminate | intros H; exfalso; apply H; left; reflexivity].
  - rewrite IH. tauto.
Qed.

Lemma cache_drop_keys c k k' :
  In k' (List.map fst (cache_drop k c)) -> In k' (List.map fst c) /\ k' <> k.
Proof.
  induction c as [|[k0 v] c IH]; [intros []|].
  unfold cache_drop in *. cbn [List.filter fst].
  unfold PyStr.eqb in *. destruct (bool_decide_reflect (k0 = k)) as [->|Hne];
    cbn [negb List.map fst In].
  - intros H. destruct (IH H). tauto.
  - intros [<-|H]; [tauto|]. destruct (IH H). tauto.
Qed.

Lemma cache_drop_nodup c k :
  NoDup (List.map fst c) -> NoDup (List.map fst (cache_drop k c)).
Proof.
  induction c as [|[k0 v] c IH]; [intros _; constructor|].
  cbn [List.map fst]. rewrite NoDup_cons. intros [Hin Hnd].
  unfold cache_drop in *. cbn [List.filter fst].
  destruct (negb (PyStr.eqb k0 k)); [|exact (IH Hnd)].
  cbn [List.map fst]. apply NoDup_cons. split; [|exact (IH Hnd)].
  rewrite list_elem_of_In. intros H. apply cache_drop_keys in H.
  apply Hin. rewrite list_elem_of_In. tauto.
Qed.

Lemma cache_drop_shorter c k v :
  cache_get k c = Some v -> (List.length (cache_drop k c) < List.length c)%nat.
Proof.
  induction c as [|[k0 v0] c IH]; [discriminate|].
  cbn [cache_get]. unfold cache_drop in *. cbn [List.filter fst].
  destruct (PyStr.eqb k0 k); cbn [negb List.length].
  - intros _. pose proof (filter_length_le (fun e => negb (PyStr.eqb e.1 k)) c).
    lia.
  - intros H. specialize (IH H). lia.
Qed.

Lemma take_keys_nodup c n :
  NoDup (List.map fst c) -> NoDup (List.map fst (take n c)).
Proof.
  revert n. induction c as [|[k0 v] c IH]; intros n.
  - destruct n; intros _; constructor.
  - destruct n as [|n]; [intros _; constructor|].
    cbn [firstn List.map fst]. rewrite !NoDup_cons. intros [Hin Hnd].
    split; [|exact (IH n Hnd)].
    intros H. apply Hin. rewrite list_elem_of_In in *.
    apply in_map_iff in H. destruct H as (x & <- & Hx).
    apply in_map. apply list_elem_of_In. apply list_elem_of_In in Hx.
    exact (subseteq_take n c x Hx).
Qed.

(** X7: a second look-up of the same sound name is answered from the
    cache: it returns what the first returned, asks the file system
    nothing, even when the files have changed in between, and leaves
    the manager as the first look-up left it. *)
Theorem X7_second_lookup_is_cached w w' self sound_name r self1 t :
  _find_sound_file w self sound_name = (r, self1, t) ->
  _find_sound_file w' self1 sound_name = (r, self1, []).
Proof.
  unfold _find_sound_file.
  destruct (cache_get sound_name (found self)) as [r0|] eqn:Hc.
  - intros E. injection E as <- <- _. cbn [found config sound_players voice_players].
    cbn [cache_get]. unfold PyStr.eqb at 1. rewrite bool_decide_eq_true_2 by reflexivity.
    unfold cache_drop at 1. cbn [List.filter fst].
    unfold PyStr.eqb at 1. rewrite bool_decide_eq_true_2 by reflexivity.
    cbn [negb]. fold (cache_drop sound_name (cache_drop sound_name (found self))).
    rewrite (cache_drop_absent _ _ (cache_get_drop _ _)). reflexivity.
  - destruct (probe_exts w _ sound_name extensions) as [r0 t0].
    intros E. injection E as <- <- _. cbn [found config sound_players voice_players].
    cbn [firstn maxsize cache_get]. unfold PyStr.eqb at 1.
    rewrite bool_decide_eq_true_2 by reflexivity.
    unfold cache_drop. cbn [List.filter fst].
    unfold PyStr.eqb at 1. rewrite bool_decide_eq_true_2 by reflexivity.
    cbn [negb]. fold (cache_drop sound_name (take 31 (found self))).
    rewrite (cache_drop_absent _ _ (cache_get_take _ _ 31 Hc)). reflexivity.
Qed.

(** X8: the cache of looked-up files never holds more than 32 entries
    nor a sound name twice: a fresh manager starts with an empty cache,
    and [_find_sound_file] and [play_sound] keep both bounds, putting the
    name looked up last in front. *)
Theorem X8_file_cache_bounded w self sound_name :
  cache_ok (found self) ->
  cache_ok (found (snd (fst (_find_sound_file w self sound_name))))
  /\ cache_ok (found (snd (fst (play_sound w self sound_name))))
  /\ (exists r rest,
        found (snd (fst (_find_sound_file w self sound_name)))
        = (sound_name, r) :: rest)
  /\ forall cfg, cache_ok (found (fst (AudioManager.init w cfg))).
Proof.
  intros [Hlen Hnd].
  assert (H1 : cache_ok (found (snd (fst (_find_sound_file w self sound_name))))
               /\ exists r rest,
                   found (snd (fst (_find_sound_file w self sound_name)))
                   = (sound_name, r) :: rest).
  { unfold _find_sound_file.
    destruct (cache_get sound_name (found self)) as [r0|] eqn:Hc.
    - cbn [fst snd found]. split; [|eauto]. split.
      + pose proof (cache_drop_shorter _ _ _ Hc). cbn [List.length]. lia.
      + cbn [List.map fst]. apply NoDup_cons.
        split; [|apply cache_drop_nodup, Hnd].
        rewrite list_elem_of_In. intros H. apply cache_drop_keys in H. tauto.
    - destruct (probe_exts w _ sound_name extensions) as [r0 t0].
      cbn [fst snd found]. split; [|cbn [firstn maxsize]; eauto]. split.
      + rewrite length_take. lia.
      + apply take_keys_nodup. cbn [List.map fst]. apply NoDup_cons.
        split; [|exact Hnd]. rewrite list_elem_of_In.
        apply cache_get_keys. exact Hc. }
  split; [exact (proj1 H1)|]. split; [|split; [exact (proj2 H1)|]].
  - unfold play_sound. destruct (invalid_name sound_name).
    + cbn [fst snd]. split; assumption.
    + destruct (_find_sound_file w self sound_name) as [[sp self1] t1].
      cbn [fst snd] in H1. destruct H1 as [Hok _].
      destruct sp as [p|].
      * destruct (try_players _ _ _ _ _) as [ok t2].
        destruct ok; [exact Hok|].
        destruct (fallback_enabled _); [|exact Hok].
        destruct (_play_system_beep w). exact Hok.
      * destruct (fallback_enabled _); [|exact Hok].
        destruct (_play_system_beep w). exact Hok.
  - intros cfg. unfold AudioManager.init.
    destruct (_init_sound_players w), (_init_voice_players w).
    cbn [fst found]. split; [cbn; lia | constructor].
Qed.

End Lookup.

(** ** Paths *)

Section Paths.

Implicit Types (s piece file : pystr) (parts : list pystr).

(** [path_join] agrees with [pathlib] on sample operands. *)
Example path_join_samples :
  path_join (py "a//b/./c/") (py "x") = py "a/b/c/x"
  /\ path_join (py "//a") (py "b") = py "//a/b"
  /\ path_join (py "///a") (py "b") = py "/a/b"
  /\ path_join (py "") (py "x") = py "x"
  /\ path_join (py "/") (py "x") = py "/x"
  /\ path_join (py "a") (py "") = py "a"
  /\ path_join (py "a") (py "/abs") = py "/abs"
  /\ path_join (py "a") (py "//abs/") = py "//abs"
  /\ path_join (py "/opt/hooks/sounds") (py "beeps/") = py "/opt/hooks/sounds/beeps"
  /\ path_join (py "/opt/hooks/sounds") (py "../x") = py "/opt/hooks/sounds/../x"
  /\ path_join (py "") (py "") = py "."
  /\ path_join (py "a") (py "..wav") = py "a/..wav".
Proof. vm_compute. repeat split; reflexivity. Qed.

Lemma split_on_whole c s : ~ In c s -> split_on c s = [s].
Proof.
  induction s as [|x s IH]; [reflexivity|].
  intros H. cbn [split_on].
  destruct (N.eqb_spec x c) as [->|_]; [exfalso; apply H; left; reflexivity|].
  rewrite IH; [reflexivity|]. intros Hin. apply H. right. exact Hin.
Qed.

Lemma split_on_app c piece s :
  ~ In c piece -> split_on c (piece ++ c :: s) = piece :: split_on c s.
Proof.
  induction piece as [|x piece IH]; intros H.
  - cbn [app split_on]. rewrite N.eqb_refl. reflexivity.
  - cbn [app split_on].
    destruct (N.eqb_spec x c) as [->|_]; [exfalso; apply H; left; reflexivity|].
    rewrite IH; [reflexivity|]. intros Hin. apply H. right. exact Hin.
Qed.

Lemma split_on_pieces c s piece : In piece (split_on c s) -> ~ In c piece.
Proof.
  revert piece. induction s as [|x s IH]; intros piece.
  - cbn. intros [<-|[]] [].
  - cbn [split_on]. destruct (N.eqb_spec x c) as [->|Hne].
    + intros [<-|H]; [intros [] | exact (IH _ H)].
    + destruct (split_on c s) as [|q qs] eqn:E.
      * intros [<-|[]] [H|[]]. exact (Hne H).
      * intros [<-|H].
        -- intros [Hx|Hin]; [exact (Hne Hx)|].
           exact (IH q (or_introl eq_refl) Hin).
        -- exact (IH piece (or_intror H)).
Qed.

Lemma split_on_join parts :
  parts <> [] -> Forall (fun piece => ~ In 47 piece) parts ->
  split_on 47 (join_parts parts) = parts.
Proof.
  induction parts as [|piece parts IH]; [congruence|].
  intros _ H. apply Forall_cons in H. destruct H as [Hp H].
  destruct parts as [|q parts].
  - cbn [join_parts]. apply split_on_whole. exact Hp.
  - change (join_parts (piece :: q :: parts))
      with (piece ++ 47 :: join_parts (q :: parts)).
    rewrite split_on_app by exact Hp.
    rewrite IH; [reflexivity | discriminate | exact H].
Qed.

Lemma path_parts_proper s : proper (path_parts s).
Proof.
  unfold proper, path_parts. apply List.Forall_forall. intros piece H.
  apply filter_In in H. destruct H as [Hin Hk].
  split; [exact (split_on_pieces _ _ _ Hin) | exact Hk].
Qed.

Lemma filter_kept parts : proper parts -> List.filter kept parts = parts.
Proof.
  induction parts as [|piece parts IH]; [reflexivity|].
  intros H. apply Forall_cons in H. destruct H as [[_ Hk] H].
  cbn [List.filter]. rewrite Hk, (IH H). reflexivity.
Qed.

Lemma proper_no_sep parts :
  proper parts -> Forall (fun piece => ~ In 47 piece) parts.
Proof.
  intros H. eapply List.Forall_impl; [|exact H]. cbn beta. tauto.
Qed.

Lemma path_root_cases s :
  path_root s = [] \/ path_root s = [47] \/ path_root s = [47; 47].
Proof.
  unfold path_root.
  repeat match goal with
         | |- context [match ?x with _ => _ end] => destruct x
         end; auto.
Qed.

Lemma split_on_sep c s : split_on c (c :: s) = [] :: split_on c s.
Proof. cbn [split_on]. rewrite N.eqb_refl. reflexivity. Qed.

Lemma path_root_plain x s : x <> 47 -> path_root (x :: s) = [].
Proof.
  intros Hx. unfold path_root. destruct x as [|px]; [reflexivity|].
  repeat (destruct px as [px|px|]; try reflexivity). congruence.
Qed.

Lemma path_root_one x s : x <> 47 -> path_root (47 :: x :: s) = [47].
Proof.
  intros Hx. unfold path_root. destruct x as [|px]; [reflexivity|].
  repeat (destruct px as [px|px|]; try reflexivity). congruence.
Qed.

Lemma path_root_two x s : x <> 47 -> path_root (47 :: 47 :: x :: s) = [47; 47].
Proof.
  intros Hx. unfold path_root. destruct x as [|px]; [reflexivity|].
  repeat (destruct px as [px|px|]; try reflexivity). congruence.
Qed.

Lemma filter_kept_nil parts :
  List.filter kept ([] :: parts) = List.filter kept parts.
Proof. reflexivity. Qed.

(** Parsing what was rendered gives back the root and the components,
    when there is a component. *)
Lemma parse_render s piece parts :
  proper (piece :: parts) ->
  path_root (path_render (path_root s) (piece :: parts)) = path_root s
  /\ path_parts (path_render (path_root s) (piece :: parts)) = piece :: parts.
Proof.
  intros Hp.
  assert (Hj : split_on 47 (join_parts (piece :: parts)) = piece :: parts).
  { apply split_on_join; [discriminate | exact (proper_no_sep _ Hp)]. }
  assert (Hhead : exists x rest, join_parts (piece :: parts) = x :: rest
                                 /\ x <> 47).
  { pose proof Hp as Hp'. apply Forall_cons in Hp'.
    destruct Hp' as [[Hsep Hk] _].
    destruct piece as [|x piece]; [discriminate Hk|].
    exists x. destruct parts as [|q parts]; cbn [join_parts app]; eexists;
      (split; [reflexivity|]); intros ->; apply Hsep; left; reflexivity. }
  destruct Hhead as (x & rest & Hjoin & Hx).
  pose proof (filter_kept _ Hp) as Hf.
  unfold path_parts.
  destruct (path_root_cases s) as [E|[E|E]]; rewrite E.
  - change (path_render [] (piece :: parts))
      with (join_parts (piece :: parts)).
    split; [rewrite Hjoin; apply path_root_plain; exact Hx|].
    rewrite Hj. exact Hf.
  - change (path_render [47] (piece :: parts))
      with (47 :: join_parts (piece :: parts)).
    split; [rewrite Hjoin; apply path_root_one; exact Hx|].
    rewrite split_on_sep, filter_kept_nil, Hj. exact Hf.
  - change (path_render [47; 47] (piece :: parts))
      with (47 :: 47 :: join_parts (piece :: parts)).
    split; [rewrite Hjoin; apply path_root_two; exact Hx|].
    rewrite !split_on_sep, !filter_kept_nil, Hj. exact Hf.
Qed.

(** Joining a directory with one proper component adds that component
    and nothing else. *)
Lemma path_join_child dir file :
  ~ In 47 file -> kept file = true ->
  path_root (path_join dir file) = path_root dir
  /\ path_parts (path_join dir file) = path_parts dir ++ [file].
Proof.
  intros Hsep Hk.
  assert (Hroot : path_root file = []).
  { destruct file as [|x file]; [reflexivity|].
    unfold path_root. destruct (N.eqb_spec x 47) as [->|Hne];
      [exfalso; apply Hsep; left; reflexivity|].
    destruct x as [|px]; [reflexivity|].
    repeat (destruct px as [px|px|]; try reflexivity); congruence. }
  assert (Hparts : path_parts file = [file]).
  { unfold path_parts. rewrite (split_on_whole _ _ Hsep).
    cbn [List.filter]. rewrite Hk. reflexivity. }
  unfold path_join. rewrite Hroot, Hparts.
  assert (Hp : proper (path_parts dir ++ [file])).
  { apply Forall_app. split; [apply path_parts_proper|].
    apply Forall_cons. split; [tauto | apply Forall_nil; exact I]. }
  destruct (path_parts dir ++ [file]) as [|piece parts] eqn:E.
  { destruct (path_parts dir); discriminate E. }
  apply parse_render. exact Hp.
Qed.

End Paths.

(** ** Playing a sound *)

Section Playing.

Import AudioManager.

Lemma play_system_beep_is_beep w : _play_system_beep w = beep w.
Proof. reflexivity. Qed.

Lemma contains_char c s : contains [c] s = false -> ~ In c s.
Proof.
  intros Hc Hin. apply in_split in Hin. destruct Hin as (a & b & ->).
  assert (H : contains [c] (a ++ c :: b) = true).
  { apply contains_spec. exists a, b. reflexivity. }
  rewrite H in Hc. discriminate Hc.
Qed.

Lemma valid_candidate dir sound_name ext :
  invalid_name sound_name = false -> In ext extensions ->
  directly_inside dir (path_join dir (sound_name ++ ext)).
Proof.
  intros Hv Hext. unfold invalid_name in Hv.
  apply orb_false_iff in Hv. destruct Hv as [Hv _].
  apply orb_false_iff in Hv. destruct Hv as [Hslash _].
  change (py "/") with [47] in Hslash. apply contains_char in Hslash.
  assert (He : ~ In 47 ext /\ (4 <= List.length ext)%nat).
  { unfold extensions in Hext. cbn [In] in Hext.
    repeat (destruct Hext as [<-|Hext];
            [split; [vm_compute; intuition discriminate | vm_compute; lia]|]).
    destruct Hext. }
  destruct He as [He Hlen].
  assert (Hfile : ~ In 47 (sound_name ++ ext)).
  { intros H. apply in_app_or in H. tauto. }
  assert (Hlong : (4 <= List.length (sound_name ++ ext))%nat).
  { rewrite length_app. lia. }
  assert (Hk : kept (sound_name ++ ext) = true).
  { destruct (sound_name ++ ext) as [|x [|y rest]]; cbn in Hlong; try lia.
    unfold kept, PyStr.eqb. rewrite bool_decide_eq_false_2 by discriminate.
    reflexivity. }
  exists (sound_name ++ ext). split; [exact Hfile|]. split; [exact Hk|].
  split; [|split; [reflexivity | exact (path_join_child dir _ Hfile Hk)]].
  intros E. rewrite E in Hlong. cbn in Hlong. lia.
Qed.

Lemma probe_exts_asks w dir sound_name exts path :
  In (Exists path) (snd (probe_exts w dir sound_name exts)) ->
  exists ext, In ext exts /\ path = path_join dir (sound_name ++ ext).
Proof.
  induction exts as [|e exts IH]; [intros []|].
  cbn [probe_exts]. destruct (path_exists w _).
  - cbn [snd In]. intros [H|[]]. injection H as <-. exists e. split; [left|]; reflexivity.
  - destruct (probe_exts w dir sound_name exts) as [r t1]. cbn [snd In] in *.
    intros [H|H].
    + injection H as <-. exists e. split; [left|]; reflexivity.
    + destruct (IH H) as (ext & Hin & ->). exists ext. split; [right|]; auto.
Qed.

Lemma find_sound_file_asks w self sound_name path :
  invalid_name sound_name = false ->
  In (Exists path) (snd (_find_sound_file w self sound_name)) ->
  directly_inside (sound_dir (config self)) path.
Proof.
  intros Hv. unfold _find_sound_file.
  destruct (cache_get sound_name (found self)); [intros []|].
  pose proof (probe_exts_asks w (sound_dir (config self)) sound_name
                extensions path) as Ha.
  unfold sound_dir in *.
  destruct (probe_exts w _ sound_name extensions) as [r t1]. cbn [snd] in *.
  intros H. destruct (Ha H) as (ext & Hin & ->).
  apply valid_candidate; assumption.
Qed.

Lemma standard_play_no_lookup w p sound_path vol e :
  In p player_classes -> In e (snd (SoundPlayer.play p w sound_path vol)) ->
  is_lookup e = false.
Proof.
  unfold player_classes. cbn [In]. intros [<-|[<-|[<-|[]]]].
  - cbn. intros [<-|[]]. reflexivity.
  - cbn. intros [<-|[]]. reflexivity.
  - cbn [SystemBeepPlayer SoundPlayer.play]. unfold beep.
    repeat destruct (PyStr.eqb _ _); cbn; intros [<-|[]]; reflexivity.
Qed.

Lemma try_players_no_lookup w players sound_name sound_path vol e :
  Forall (fun p => In p player_classes) players ->
  In e (snd (try_players w players sound_name sound_path vol)) ->
  is_lookup e = false.
Proof.
  induction players as [|p players IH]; [intros _ []|].
  intros Hstd. apply Forall_cons in Hstd. destruct Hstd as [Hp Hstd].
  cbn [try_players].
  pose proof (standard_play_no_lookup w p sound_path vol e Hp) as H1.
  destruct (SoundPlayer.play p w sound_path vol) as [ok t1]. cbn [snd] in H1.
  destruct ok.
  - cbn [snd]. intros H. apply in_app_or in H.
    destruct H as [H|[<-|[]]]; [exact (H1 H) | reflexivity].
  - specialize (IH Hstd).
    destruct (try_players w players sound_name sound_path vol) as [r t2].
    cbn [snd] in *. intros H. apply in_app_or in H.
    destruct H as [H|H]; [exact (H1 H) | exact (IH H)].
Qed.

Lemma beep_no_lookup w e : In e (snd (beep w)) -> is_lookup e = false.
Proof.
  unfold beep. repeat destruct (PyStr.eqb _ _); cbn; intros [<-|[]]; reflexivity.
Qed.

(** X6: on a platform with POSIX paths, whatever the sound name, every
    file [play_sound] asks the file system for lies directly in the
    sound directory of the configuration: its path is that directory
    joined with one proper component (not empty, not [.], not [..],
    without separator), so that it has the root of the directory and the
    components of the directory followed by that one. The players meant
    are those of the program. *)
Theorem X6_lookups_stay_in_sound_directory w self sound_name path :
  platform_system w <> py "Windows" ->
  standard_players self ->
  In (Exists path) (snd (play_sound w self sound_name)) ->
  directly_inside (sound_dir (config self)) path.
Proof.
  intros _ Hstd. unfold play_sound.
  destruct (invalid_name sound_name) eqn:Hv.
  { cbn. intros [H|[]]. discriminate H. }
  pose proof (find_sound_file_asks w self sound_name path Hv) as Hfind.
  rewrite play_system_beep_is_beep.
  destruct (_find_sound_file w self sound_name) as [[sp self1] t1].
  cbn [snd] in Hfind.
  assert (Hnot : forall l, (forall e, In e l -> is_lookup e = false) ->
                           ~ In (Exists path) l).
  { intros l Hl Hin. specialize (Hl _ Hin). discriminate Hl. }
  pose proof (beep_no_lookup w) as Hbeep.
  destruct sp as [p|].
  - pose proof (fun e => try_players_no_lookup w (sound_players self)
                  sound_name p (volume (sound_config (config self))) e Hstd)
      as Htry.
    destruct (try_players _ _ _ _ _) as [ok t2]. cbn [snd] in Htry.
    destruct ok; [|destruct (fallback_enabled _); [destruct (beep w) as [r t3]|]];
      cbn [snd] in *; intros H;
      repeat (apply in_app_or in H; destruct H as [H|H]);
      first [ exact (Hfind H) | exfalso; exact (Hnot _ Htry H)
            | exfalso; exact (Hnot _ Hbeep H) ].
  - destruct (fallback_enabled _); [destruct (beep w) as [r t3]|];
      cbn [snd] in *; intros H;
      repeat (apply in_app_or in H; destruct H as [H|H]);
      first [ exact (Hfind H)
            | exfalso; exact (Hnot _ Hbeep H)
            | destruct H as [H|H]; [discriminate H|];
              first [ destruct H | exfalso; exact (Hnot _ Hbeep H) ] ].
Qed.

End Playing.

(** ** More on matching *)

Section More_matching.

Implicit Types (p : Pattern) (s t : pystr) (m : gmap pystr json).

(** X10: [find_match] reads three keys of the payload and nothing else:
    adding, replacing or removing any other key leaves the directive
    unchanged. *)
Theorem X10_other_keys_ignored m (key : pystr) (value : json) :
  key <> Keys.event -> key <> Keys.tool -> key <> Keys.input ->
  find_match (JObj (<[key := value]> m)) = find_match (JObj m)
  /\ find_match (JObj (delete key m)) = find_match (JObj m).
Proof.
  intros He Ht Hi. split; apply find_match_ext; unfold field;
    rewrite ?command_of_obj, ?lookup_insert_ne, ?lookup_delete_ne by assumption;
    reflexivity.
Qed.

(** X11: a directive is null in both halves or present in both: when
    [find_match] returns, it returns either no sound and no voice key, or
    the sound and the voice key of one rule of the table, neither of
    them empty. *)
Theorem X11_directive_all_or_nothing event_data d :
  find_match event_data = Ok d ->
  d = (None, None)
  \/ exists p, In p all_rules
       /\ d = (Some (sound p), Some (voice_key p))
       /\ HookHandler.truthy (Some (sound p)) = true
       /\ HookHandler.truthy (Some (voice_key p)) = true.
Proof.
  intros H. destruct (find_match_from_table _ _ H) as [E|(p & Hp & E)];
    [left; exact E | right].
  pose proof all_rules_nonempty as Hall. rewrite forallb_forall in Hall.
  specialize (Hall p Hp). apply andb_true_iff in Hall.
  exists p. split; [exact Hp|]. split; [exact E | exact Hall].
Qed.

(** X12: on a payload that is a mapping [find_match] raises in exactly
    three cases: [hook_event_name] is present and not text; no system
    rule matches it and [tool_name] is present and not text; or the event
    is exactly "PreToolUse" with tool exactly "Bash" and the command
    cannot be read as text ([tool_input] is not a mapping, or [command]
    is not text). A malformed [tool_input] is harmless on every other
    event. *)
Theorem X12_when_find_match_raises m :
  raises (find_match (JObj m))
  <-> is_text (field m Keys.event) = false
      \/ (exists en, field m Keys.event = JStr en
            /\ List.find (hits en) Table.system_events = None
            /\ is_text (field m Keys.tool) = false)
      \/ (field m Keys.event = JStr (py "PreToolUse")
          /\ field m Keys.tool = JStr (py "Bash")
          /\ forall cmd, command_of (JObj m) <> Ok (JStr cmd)).
Proof. exact (find_match_raises_iff m). Qed.

(** X13: a rule of the table matches at the start of the text and does
    not look beyond its match: a rule of the table that matches a text
    matches every text that begins with it. *)
Theorem X13_match_ignores_what_follows p s t :
  In p all_rules ->
  matches p (JStr s) = Ok true -> matches p (JStr (s ++ t)) = Ok true.
Proof.
  intros _. cbn [matches]. intros H. injection H as H. f_equal.
  apply re_match_spec in H. apply re_match_spec.
  destruct H as (pre & suf & -> & Hacc).
  exists pre, (suf ++ t). split; [rewrite app_assoc; reflexivity | exact Hacc].
Qed.

Lemma lower_to_ascii_upper c : lower_to_ascii (ascii_upper c) = lower_to_ascii c.
Proof.
  unfold ascii_upper. destruct (is_ascii_lower c) eqn:Hl; [|reflexivity].
  unfold is_ascii_lower in Hl. apply andb_true_iff in Hl.
  destruct Hl as [H1 H2]. apply N.leb_le in H1, H2.
  unfold lower_to_ascii, is_ascii_upper.
  replace (65 <=? c - 32) with true by (symmetry; apply N.leb_le; lia).
  replace (c - 32 <=? 90) with true by (symmetry; apply N.leb_le; lia).
  replace (c <=? 90) with false by (symmetry; apply N.leb_gt; lia).
  rewrite andb_false_r. cbn [andb].
  replace (c =? 304) with false by (symmetry; apply N.eqb_neq; lia).
  replace (c =? 8490) with false by (symmetry; apply N.eqb_neq; lia).
  lia.
Qed.

Lemma lower_to_ascii_lower c : lower_to_ascii (ascii_lower c) = lower_to_ascii c.
Proof.
  unfold ascii_lower. destruct (is_ascii_upper c) eqn:Hu; [|reflexivity].
  unfold lower_to_ascii at 2. rewrite Hu.
  unfold is_ascii_upper in Hu. apply andb_true_iff in Hu.
  destruct Hu as [H1 H2]. apply N.leb_le in H1, H2.
  unfold lower_to_ascii, is_ascii_upper.
  replace (c + 32 <=? 90) with false by (symmetry; apply N.leb_gt; lia).
  rewrite andb_false_r.
  replace (c + 32 =? 304) with false by (symmetry; apply N.eqb_neq; lia).
  replace (c + 32 =? 8490) with false by (symmetry; apply N.eqb_neq; lia).
  reflexivity.
Qed.

Lemma lit_match_upper q c : lit_match q (ascii_upper c) = lit_match q c.
Proof.
  unfold lit_match. rewrite lower_to_ascii_upper.
  unfold ascii_upper. destruct (is_ascii_lower c) eqn:Hl; [|reflexivity].
  pose proof Hl as Hl'. unfold is_ascii_lower in Hl'.
  apply andb_true_iff in Hl'. destruct Hl' as [H1 H2]. apply N.leb_le in H1, H2.
  replace (c - 32 =? 305) with false by (symmetry; apply N.eqb_neq; lia).
  replace (c - 32 =? 383) with false by (symmetry; apply N.eqb_neq; lia).
  replace (c =? 305) with false by (symmetry; apply N.eqb_neq; lia).
  replace (c =? 383) with false by (symmetry; apply N.eqb_neq; lia).
  destruct (is_ascii_upper q) eqn:Hqu; cbn [orb]; [reflexivity|].
  destruct (is_ascii_lower q) eqn:Hql; [reflexivity|].
  destruct (N.eqb_spec c q) as [->|Hne]; [congruence|].
  apply N.eqb_neq. intros E.
  assert (Hq : is_ascii_upper q = true).
  { unfold is_ascii_upper. apply andb_true_iff. split; apply N.leb_le; lia. }
  congruence.
Qed.

Lemma lit_match_lower q c : lit_match q (ascii_lower c) = lit_match q c.
Proof.
  unfold lit_match. rewrite lower_to_ascii_lower.
  unfold ascii_lower. destruct (is_ascii_upper c) eqn:Hu; [|reflexivity].
  pose proof Hu as Hu'. unfold is_ascii_upper in Hu'.
  apply andb_true_iff in Hu'. destruct Hu' as [H1 H2]. apply N.leb_le in H1, H2.
  replace (c + 32 =? 305) with false by (symmetry; apply N.eqb_neq; lia).
  replace (c + 32 =? 383) with false by (symmetry; apply N.eqb_neq; lia).
  replace (c =? 305) with false by (symmetry; apply N.eqb_neq; lia).
  replace (c =? 383) with false by (symmetry; apply N.eqb_neq; lia).
  destruct (is_ascii_upper q) eqn:Hqu; cbn [orb]; [reflexivity|].
  destruct (is_ascii_lower q) eqn:Hql; [reflexivity|].
  destruct (N.eqb_spec c q) as [->|Hne]; [congruence|].
  apply N.eqb_neq. intros E.
  assert (Hq : is_ascii_lower q = true).
  { unfold is_ascii_lower. apply andb_true_iff. split; apply N.leb_le; lia. }
  congruence.
Qed.

(** A recoding of the text that no piece of a pattern can tell from the
    identity leaves every match as it is. *)
Lemma re_match_recode (f : N -> N) :
  (forall q c, lit_match q (f c) = lit_match q c) ->
  (forall c, dot_match (f c) = dot_match c) ->
  (forall c, is_space (f c) = is_space c) ->
  forall s bol r, match_from (List.map f s) bol r = match_from s bol r.
Proof.
  intros Hl Hd Hs.
  assert (Hderiv : forall r bol c, deriv bol (f c) r = deriv bol c r).
  { induction r as [| | |q| | |r1 IH1 r2 IH2|r1 IH1 r2 IH2|r IH];
      intros bol c; cbn [deriv];
      rewrite ?Hl, ?Hd, ?Hs, ?IH1, ?IH2, ?IH; reflexivity. }
  induction s as [|c s IH]; intros bol r; [reflexivity|].
  cbn [List.map match_from]. rewrite Hderiv, IH. reflexivity.
Qed.

Lemma ascii_upper_cases c :
  ascii_upper c = c \/ (97 <= c <= 122 /\ ascii_upper c = c - 32).
Proof.
  unfold ascii_upper. destruct (is_ascii_lower c) eqn:Hl; [right|left; reflexivity].
  unfold is_ascii_lower in Hl. apply andb_true_iff in Hl.
  destruct Hl as [H1 H2]. apply N.leb_le in H1, H2. auto.
Qed.

Lemma ascii_lower_cases c :
  ascii_lower c = c \/ (65 <= c <= 90 /\ ascii_lower c = c + 32).
Proof.
  unfold ascii_lower. destruct (is_ascii_upper c) eqn:Hl; [right|left; reflexivity].
  unfold is_ascii_upper in Hl. apply andb_true_iff in Hl.
  destruct Hl as [H1 H2]. apply N.leb_le in H1, H2. auto.
Qed.

Ltac settle_comparisons :=
  repeat match goal with
         | |- context [N.leb ?a ?b] =>
           first [ replace (N.leb a b) with true
                     by (symmetry; apply N.leb_le; lia)
                 | replace (N.leb a b) with false
                     by (symmetry; apply N.leb_gt; lia) ]
         | |- context [N.eqb ?a ?b] =>
           replace (N.eqb a b) with false by (symmetry; apply N.eqb_neq; lia)
         end.

Lemma letter_not_space c : 65 <= c <= 122 -> is_space c = false.
Proof. intros H. unfold is_space. settle_comparisons. reflexivity. Qed.

Lemma letter_is_dot c : 65 <= c <= 122 -> dot_match c = true.
Proof. intros H. unfold dot_match. settle_comparisons. reflexivity. Qed.

(** X14: the rules of the table ignore the case of ASCII letters in the
    text: a rule of the table matches a text exactly when it matches the
    text in capitals, and exactly when it matches the text in small
    letters. *)
Theorem X14_match_ignores_ascii_case p s :
  In p all_rules ->
  matches p (JStr (List.map ascii_upper s)) = matches p (JStr s)
  /\ matches p (JStr (List.map ascii_lower s)) = matches p (JStr s).
Proof.
  intros _. cbn [matches]. unfold re_match. split; f_equal; apply re_match_recode.
  - apply lit_match_upper.
  - intros c. destruct (ascii_upper_cases c) as [->|[Hr ->]]; [reflexivity|].
    rewrite !letter_is_dot by lia. reflexivity.
  - intros c. destruct (ascii_upper_cases c) as [->|[Hr ->]]; [reflexivity|].
    rewrite !letter_not_space by lia. reflexivity.
  - apply lit_match_lower.
  - intros c. destruct (ascii_lower_cases c) as [->|[Hr ->]]; [reflexivity|].
    rewrite !letter_is_dot by lia. reflexivity.
  - intros c. destruct (ascii_lower_cases c) as [->|[Hr ->]]; [reflexivity|].
    rewrite !letter_not_space by lia. reflexivity.
Qed.

End More_matching.

(** ** Modes of the handler *)

Section Modes.

Import HookHandler.

(** X15: with a mode other than [sound], [voice] and [both] the handler
    delivers nothing: [handle_event] leaves the handler as it was and
    only writes the audit record and lines of the log, for every
    payload. *)
Theorem X15_unknown_mode_delivers_nothing w self event_data :
  known_mode (mode (config self)) = false ->
  snd (fst (handle_event w self event_data)) = self
  /\ forallb is_record (snd (handle_event w self event_data)) = true.
Proof.
  unfold known_mode. intros H.
  apply orb_false_iff in H. destruct H as [H Hb].
  apply orb_false_iff in H. destruct H as [Hs Hv].
  unfold handle_event.
  destruct (find_match event_data) as [[sn vk]|e];
    [|split; [reflexivity | apply log_event_records]].
  unfold dispatch. rewrite Hs, Hv, Hb. cbn [andb].
  destruct (negb (truthy sn) && negb (truthy vk)), (test_mode (config self));
    cbn [fst snd]; (split; [reflexivity|]);
    rewrite forallb_app, log_event_records; reflexivity.
Qed.

(** X16: in the modes [sound] and [voice] one step runs alone. With the
    test-mode flag clear and a directive with both halves, mode [voice]
    speaks the description and touches neither the file system cache nor
    the handler; mode [sound] plays the sound at once, without the sleep
    that mode [both] puts before it. *)
Theorem X16_single_modes w self event_data s k :
  test_mode (config self) = false ->
  find_match event_data = Ok (Some s, Some k) ->
  (mode (config self) = py "voice" ->
   handle_event w self event_data
   = (Ok tt, self, _log_event w event_data ++ speaking k :: spoken w self k))
  /\ (mode (config self) = py "sound" ->
      handle_event w self event_data
      = (Ok tt,
         mk (config self)
            (snd (fst (AudioManager.play_sound w (audio_manager self) s))),
         _log_event w event_data ++ playing s :: played w self s)).
Proof.
  intros Ht Hfm.
  destruct (find_match_shape _ _ Hfm) as [E|(s' & k' & E & Hs & Hk)];
    [discriminate E|]. injection E as <- <-.
  unfold handle_event. rewrite Hfm. unfold dispatch, sound_step, voice_step.
  cbn [truthy fmt]. rewrite Hs, Hk, Ht. cbn [negb andb].
  split; intros ->.
  - replace (PyStr.eqb (py "voice") (py "sound")) with false
      by (vm_compute; reflexivity).
    replace (PyStr.eqb (py "voice") (py "voice")) with true
      by (vm_compute; reflexivity).
    cbn [andb]. rewrite app_nil_r. reflexivity.
  - replace (PyStr.eqb (py "sound") (py "sound")) with true
      by (vm_compute; reflexivity).
    cbn [andb]. unfold played, playing.
    destruct (AudioManager.play_sound w (audio_manager self) s) as [[r am] t1].
    cbn [fst snd app]. rewrite app_nil_r. reflexivity.
Qed.

End Modes.

(** ** The whole run *)

Section Runs.

Import Main.

Lemma init_only_probes w cfg :
  forallb is_probe (snd (HookHandler.init w cfg)) = true.
Proof.
  unfold HookHandler.init, AudioManager.init, AudioManager._init_sound_players,
    AudioManager.init_sound_players_from, AudioManager.player_classes,
    AudioManager._init_voice_players.
  cbn [AudioManager.probe_sound AudioManager.probe_voice
       SoundPlayer.is_available VoicePlayer.is_available
       AfplaySoundPlayer SoxSoundPlayer SystemBeepPlayer
       MacOSSayVoicePlayer EspeakVoicePlayer].
  destruct (which_ok w (py "afplay")), (which_ok w (py "play")),
    (which_ok w (py "say") && _), (which_ok w (py "espeak")); reflexivity.
Qed.

Lemma startup_only_probes w :
  forallb (fun e => is_probe e || is_lookup e) (startup w) = true.
Proof.
  unfold startup. rewrite forallb_app. apply andb_true_iff. split.
  - reflexivity.
  - pose proof (init_only_probes w (fst (load_config w))) as H.
    rewrite forallb_forall in *. intros e He. rewrite (H e He). reflexivity.
Qed.

Lemma main_trace_fault w f :
  stdin w = inr f ->
  snd (main w) = startup w ++ snd (handlers (exn_of_fault f)).
Proof.
  intros Hs. unfold main, body, read_event, startup. rewrite Hs.
  destruct (load_config w) as [config t0]. cbn [fst snd].
  destruct (HookHandler.init w config) as [handler t1]. cbn [fst snd].
  destruct (handlers (exn_of_fault f)) as [code t2]. cbn [snd].
  rewrite <- ?app_assoc. reflexivity.
Qed.

Lemma main_trace_parsed w event_data :
  stdin w = inl event_data ->
  snd (main w)
  = startup w ++ snd (HookHandler.handle_event w (handler_of w) event_data)
    ++ match fst (fst (HookHandler.handle_event w (handler_of w) event_data)) with
       | Raise e => snd (handlers e)
       | Ok _ => []
       end.
Proof.
  intros Hs. unfold main, body, read_event, startup, handler_of. rewrite Hs.
  destruct (load_config w) as [config t0]. cbn [fst snd].
  destruct (HookHandler.init w config) as [handler t1]. cbn [fst snd].
  destruct (HookHandler.handle_event w handler event_data) as [[r h'] t2].
  cbn [fst snd]. destruct r as [[]|e]; cbn [bind].
  - cbn [handlers snd]. rewrite ?app_nil_r, <- ?app_assoc. reflexivity.
  - destruct (handlers e) as [code t3]. cbn [snd].
    rewrite <- ?app_assoc. reflexivity.
Qed.

Lemma handlers_only_stderr e :
  forallb (fun x => match x with Stderr _ => true | _ => false end)
          (snd (handlers e)) = true.
Proof. destruct e; reflexivity. Qed.

(** X17: when reading the event from standard input fails, whatever
    the failure, the run writes no audit record, looks up no sound, does
    not sleep and delivers nothing: besides probing for the players at
    start-up it prints at most one line to the error stream. *)
Theorem X17_unreadable_input_does_nothing w f :
  stdin w = inr f ->
  snd (main w) = startup w ++ snd (handlers (exn_of_fault f))
  /\ forallb (fun e => negb (is_audit e) && negb (is_delivery e)
                       && negb (is_sleep e)) (snd (main w)) = true
  /\ (List.length (snd (handlers (exn_of_fault f))) <= 1)%nat.
Proof.
  intros Hs. rewrite (main_trace_fault w f Hs). split; [reflexivity|]. split.
  - rewrite forallb_app. apply andb_true_iff. split.
    + pose proof (startup_only_probes w) as H. rewrite forallb_forall in *.
      intros e He. specialize (H e He). destruct e; try discriminate H; reflexivity.
    + destruct f; reflexivity.
  - destruct f; cbn; lia.
Qed.







Lemma load_config_test_mode w v :
  environ w !! py "CLAUDE_HOOK_TEST" = Some v ->
  test_mode (fst (load_config w)) = is_true v.
Proof.
  intros H. unfold load_config. cbn [fst test_mode]. unfold getenv.
  rewrite H. reflexivity.
Qed.

Lemma init_config w cfg : HookHandler.config (fst (HookHandler.init w cfg)) = cfg.
Proof.
  unfold HookHandler.init. destruct (AudioManager.init w cfg). reflexivity.
Qed.

(** X19: setting [CLAUDE_HOOK_TEST] to [true], in any case of the
    letters, makes the whole run a dry run: whatever the event on
    standard input and whatever the mode, no player is started and there
    is no sleep. *)
Theorem X19_test_variable_makes_dry_run w v :
  environ w !! py "CLAUDE_HOOK_TEST" = Some v ->
  List.map ascii_lower v = py "true" ->
  test_mode (HookHandler.config (handler_of w)) = true
  /\ forallb (fun e => negb (is_delivery e) && negb (is_sleep e))
             (snd (main w)) = true.
Proof.
  intros Hv Htrue.
  assert (Ht : test_mode (HookHandler.config (handler_of w)) = true).
  { unfold handler_of. rewrite init_config, (load_config_test_mode w v Hv).
    unfold is_true, ascii_lower in *. unfold PyStr.eqb.
    apply bool_decide_eq_true_2. exact Htrue. }
  split; [exact Ht|].
  assert (Hstart : forallb (fun e => negb (is_delivery e) && negb (is_sleep e))
                           (startup w) = true).
  { pose proof (startup_only_probes w) as H. rewrite forallb_forall in *.
    intros x Hx. specialize (H x Hx). destruct x; try discriminate H; reflexivity. }
  destruct (stdin w) as [event_data|f] eqn:Hs.
  - rewrite (main_trace_parsed w event_data Hs), !forallb_app, Hstart.
    cbn [andb]. apply andb_true_iff. split.
    + assert (Hrec : forallb is_record
                (snd (HookHandler.handle_event w (handler_of w) event_data))
              = true).
      { unfold HookHandler.handle_event.
        destruct (find_match event_data) as [[sn vk]|e];
          [|apply log_event_records].
        destruct (dispatch_test_mode w (handler_of w) sn vk Ht) as [_ Hq].
        destruct (HookHandler.dispatch w (handler_of w) sn vk) as [h1 t1].
        cbn [snd] in *. rewrite forallb_app, log_event_records, Hq. reflexivity. }
      rewrite forallb_forall in *. intros x Hx. specialize (Hrec x Hx).
      destruct x; try discriminate Hrec; reflexivity.
    + destruct (fst (fst (HookHandler.handle_event w (handler_of w) event_data)))
        as [|e]; [reflexivity|]. destruct e; reflexivity.
  - rewrite (main_trace_fault w f Hs), forallb_app, Hstart.
    destruct f; reflexivity.
Qed.

End Runs.

(** ** The audit log and the default mode *)

Section Audit.

Import HookHandler.

Lemma init_standard_players w cfg :
  standard_players (fst (AudioManager.init w cfg)).
Proof.
  unfold standard_players, AudioManager.init.
  pose proof (fun p => probe_sound_sub AudioManager.player_classes w p) as Hsub.
  unfold AudioManager._init_sound_players, AudioManager.init_sound_players_from.
  destruct (AudioManager.probe_sound AudioManager.player_classes w)
    as [[|p players] t1]; cbn [fst] in Hsub;
    destruct (AudioManager._init_voice_players w) as [vp t2];
    cbn [fst AudioManager.sound_players].
  - apply Forall_cons. split; [right; right; left; reflexivity | apply Forall_nil; exact I].
  - apply Forall_forall. intros x Hx. apply Hsub. apply list_elem_of_In. exact Hx.
Qed.

Lemma init_standard_voices w cfg :
  standard_voices (fst (AudioManager.init w cfg)).
Proof.
  unfold standard_voices, AudioManager.init.
  destruct (AudioManager._init_sound_players w) as [sp t1].
  pose proof (init_voice_players_eq w) as Hv.
  destruct (AudioManager._init_voice_players w) as [vp t2].
  cbn [fst AudioManager.voice_players] in *. subst vp.
  destruct (which_ok w (py "say") && _), (which_ok w (py "espeak"));
    cbn [app]; repeat (apply Forall_cons; split; [cbn; tauto|]);
    apply Forall_nil; exact I.
Qed.

Lemma standard_play_same w err p sound_path vol :
  In p AudioManager.player_classes ->
  SoundPlayer.play p (with_audit_error w err) sound_path vol
  = SoundPlayer.play p w sound_path vol.
Proof.
  unfold AudioManager.player_classes. cbn [In].
  intros [<-|[<-|[<-|[]]]]; reflexivity.
Qed.

Lemma standard_speak_same w err p text cfg :
  In p [MacOSSayVoicePlayer; EspeakVoicePlayer] ->
  VoicePlayer.speak p (with_audit_error w err) text cfg
  = VoicePlayer.speak p w text cfg.
Proof. cbn [In]. intros [<-|[<-|[]]]; reflexivity. Qed.

Lemma try_players_same w err players sound_name sound_path vol :
  Forall (fun p => In p AudioManager.player_classes) players ->
  AudioManager.try_players (with_audit_error w err) players sound_name
                           sound_path vol
  = AudioManager.try_players w players sound_name sound_path vol.
Proof.
  induction players as [|p players IH]; [reflexivity|].
  intros H. apply Forall_cons in H. destruct H as [Hp H].
  cbn [AudioManager.try_players].
  rewrite (standard_play_same w err p sound_path vol Hp), (IH H). reflexivity.
Qed.

Lemma try_voices_same w err players text cfg :
  Forall (fun p => In p [MacOSSayVoicePlayer; EspeakVoicePlayer]) players ->
  AudioManager.try_voices (with_audit_error w err) players text cfg
  = AudioManager.try_voices w players text cfg.
Proof.
  induction players as [|p players IH]; [reflexivity|].
  intros H. apply Forall_cons in H. destruct H as [Hp H].
  cbn [AudioManager.try_voices].
  rewrite (standard_speak_same w err p text cfg Hp), (IH H). reflexivity.
Qed.

Lemma play_sound_same w err am sound_name :
  standard_players am ->
  AudioManager.play_sound (with_audit_error w err) am sound_name
  = AudioManager.play_sound w am sound_name.
Proof.
  intros Hstd. unfold AudioManager.play_sound.
  destruct (AudioManager.invalid_name sound_name); [reflexivity|].
  replace (AudioManager._find_sound_file (with_audit_error w err) am sound_name)
    with (AudioManager._find_sound_file w am sound_name)
    by (unfold AudioManager._find_sound_file;
        destruct (AudioManager.cache_get _ _); reflexivity).
  destruct (AudioManager._find_sound_file w am sound_name) as [[[p|] am1] t1];
    [|reflexivity].
  rewrite (try_players_same w err _ sound_name) by exact Hstd.
  reflexivity.
Qed.

Lemma speak_text_same w err am text :
  standard_voices am ->
  AudioManager.speak_text (with_audit_error w err) am text
  = AudioManager.speak_text w am text.
Proof.
  intros Hstd. unfold AudioManager.speak_text.
  destruct (AudioManager.voice_players am) as [|p players] eqn:E; [reflexivity|].
  rewrite <- E. apply try_voices_same. exact Hstd.
Qed.

(** X21: a failure to write the audit log changes nothing else: with
    the players of the program, [handle_event] returns the same result,
    leaves the same handler and does the same after the audit record,
    whether appending to the audit log succeeds or fails; a failure only
    adds one error line to the log, right after the record. *)
Theorem X21_audit_failure_is_harmless w err self event_data :
  standard_players (audio_manager self) ->
  standard_voices (audio_manager self) ->
  fst (handle_event (with_audit_error w err) self event_data)
  = fst (handle_event w self event_data)
  /\ exists rest,
      snd (handle_event (with_audit_error w err) self event_data)
      = AuditAppend event_data
        :: match err with
           | Some text => [Log ERROR (py "Failed to log event: " ++ text)]
           | None => []
           end ++ rest
      /\ snd (handle_event w self event_data)
         = _log_event w event_data ++ rest.
Proof.
  intros Hsp Hvp.
  assert (Hd : forall sn vk,
             dispatch (with_audit_error w err) self sn vk = dispatch w self sn vk).
  { intros sn vk. unfold dispatch, sound_step, voice_step.
    rewrite !(play_sound_same w err _ _ Hsp), !(speak_text_same w err _ _ Hvp).
    reflexivity. }
  unfold handle_event.
  destruct (find_match event_data) as [[sn vk]|e].
  - rewrite Hd. destruct (dispatch w self sn vk) as [self1 t1].
    cbn [fst snd]. split; [reflexivity|]. exists t1.
    split; [|reflexivity]. unfold _log_event. cbn [audit_error with_audit_error].
    destruct err; reflexivity.
  - cbn [fst snd]. split; [reflexivity|]. exists [].
    rewrite !app_nil_r. split; [|reflexivity].
    unfold _log_event. cbn [audit_error with_audit_error].
    destruct err; reflexivity.
Qed.

Lemma filter_none {A} (f : A -> bool) (l : list A) :
  (forall x, In x l -> f x = false) -> List.filter f l = [].
Proof.
  induction l as [|a l IH]; [reflexivity|].
  intros H. cbn [List.filter]. rewrite (H a (or_introl eq_refl)).
  apply IH. intros x Hx. apply H. right. exact Hx.
Qed.

Lemma try_voices_plain w players text cfg e :
  Forall (fun p => In p [MacOSSayVoicePlayer; EspeakVoicePlayer]) players ->
  In e (snd (AudioManager.try_voices w players text cfg)) ->
  is_lookup e = false /\ is_sleep e = false.
Proof.
  induction players as [|p players IH].
  - intros _. cbn. intros [<-|[]]. split; reflexivity.
  - intros H. apply Forall_cons in H. destruct H as [Hp H].
    cbn [AudioManager.try_voices].
    assert (H1 : forall x, In x (snd (VoicePlayer.speak p w text cfg)) ->
                           is_lookup x = false /\ is_sleep x = false).
    { cbn [In] in Hp. destruct Hp as [<-|[<-|[]]]; cbn;
        intros x [<-|[]]; destruct (async_speak cfg); split; reflexivity. }
    destruct (VoicePlayer.speak p w text cfg) as [ok t1]. cbn [snd] in H1.
    destruct ok.
    + cbn [snd]. intros Hin. apply in_app_or in Hin.
      destruct Hin as [Hin|[<-|[]]]; [exact (H1 _ Hin) | split; reflexivity].
    + specialize (IH H).
      destruct (AudioManager.try_voices w players text cfg) as [r t2].
      cbn [snd] in *. intros Hin. apply in_app_or in Hin.
      destruct Hin as [Hin|Hin]; [exact (H1 _ Hin) | exact (IH Hin)].
Qed.

Lemma speak_text_plain w am text e :
  standard_voices am ->
  In e (snd (AudioManager.speak_text w am text)) ->
  is_lookup e = false /\ is_sleep e = false.
Proof.
  intros Hstd. unfold AudioManager.speak_text.
  destruct (AudioManager.voice_players am) as [|p players] eqn:E.
  - cbn. intros [<-|[]]. split; reflexivity.
  - rewrite <- E. apply try_voices_plain. exact Hstd.
Qed.

Lemma handle_event_voice_plain w self event_data e :
  mode (config self) = py "voice" ->
  standard_voices (audio_manager self) ->
  In e (snd (handle_event w self event_data)) ->
  is_lookup e = false /\ is_sleep e = false.
Proof.
  intros Hm Hstd. unfold handle_event.
  assert (Hlog : forall x, In x (_log_event w event_data) ->
                           is_lookup x = false /\ is_sleep x = false).
  { unfold _log_event. destruct (audit_error w); cbn;
      intuition (subst; reflexivity). }
  destruct (find_match event_data) as [[sn vk]|err]; [|exact (Hlog e)].
  unfold dispatch, voice_step. rewrite Hm.
  replace (PyStr.eqb (py "voice") (py "sound")) with false
    by (vm_compute; reflexivity).
  replace (PyStr.eqb (py "voice") (py "voice")) with true
    by (vm_compute; reflexivity).
  pose proof (fun x => speak_text_plain w (audio_manager self)
                         (describe (fmt vk)) x Hstd) as Hsp.
  destruct (AudioManager.speak_text w (audio_manager self) (describe (fmt vk)))
    as [r ts]. cbn [snd] in Hsp.
  destruct (negb (truthy sn) && negb (truthy vk)), (truthy vk),
    (test_mode (config self)); cbn [andb fst snd];
    intros Hin; apply in_app_or in Hin; destruct Hin as [Hin|Hin];
    try exact (Hlog _ Hin);
    repeat (apply in_app_or in Hin; destruct Hin as [Hin|Hin]);
    cbn [In] in Hin;
    repeat match goal with
           | H : _ \/ _ |- _ => destruct H as [H|H]
           | H : False |- _ => destruct H
           | H : _ = e |- _ => rewrite <- H; split; reflexivity
           | H : In e ts |- _ => exact (Hsp _ H)
           end.
Qed.

End Audit.

Section Default_mode.

Import Main.

(** X20: with [CLAUDE_HOOK_MODE] unset the mode is [voice], and then
    the run never sleeps and asks the file system for one file only, the
    configuration file: no sound file is looked up, whatever the event on
    standard input. *)
Theorem X20_default_mode_looks_up_no_sound w :
  environ w !! py "CLAUDE_HOOK_MODE" = None ->
  mode (HookHandler.config (handler_of w)) = py "voice"
  /\ List.filter is_lookup (snd (main w))
     = [Exists (path_join (script_dir w) (py "hook_config.json"))]
  /\ forallb (fun e => negb (is_sleep e)) (snd (main w)) = true.
Proof.
  intros Henv.
  assert (Hm : mode (HookHandler.config (handler_of w)) = py "voice").
  { unfold handler_of. rewrite init_config. unfold load_config.
    cbn [fst mode]. unfold getenv. rewrite Henv. reflexivity. }
  split; [exact Hm|].
  assert (Hstart : List.filter is_lookup (startup w)
                   = [Exists (path_join (script_dir w) (py "hook_config.json"))]
                   /\ forall e, In e (startup w) -> is_sleep e = false).
  { unfold startup. cbn [load_config snd app List.filter is_lookup].
    pose proof (init_only_probes w (fst (load_config w))) as H.
    rewrite forallb_forall in H. split.
    - f_equal. apply filter_none. intros x Hx. specialize (H x Hx).
      destruct x; try discriminate H; reflexivity.
    - intros e [<-|He]; [reflexivity|]. specialize (H e He).
      destruct e; try discriminate H; reflexivity. }
  destruct Hstart as [Hlook Hsleep].
  assert (Hstd : standard_voices (HookHandler.audio_manager (handler_of w))).
  { unfold handler_of, HookHandler.init.
    pose proof (init_standard_voices w (fst (load_config w))) as H.
    destruct (AudioManager.init w (fst (load_config w))). exact H. }
  assert (Hrest : forall rest,
             (forall e, In e rest -> is_lookup e = false /\ is_sleep e = false) ->
             List.filter is_lookup (startup w ++ rest)
             = [Exists (path_join (script_dir w) (py "hook_config.json"))]
             /\ forallb (fun e => negb (is_sleep e)) (startup w ++ rest) = true).
  { intros rest Hr. split.
    - rewrite List.filter_app, Hlook, (filter_none is_lookup rest); [reflexivity|].
      intros x Hx. exact (proj1 (Hr x Hx)).
    - rewrite forallb_forall. intros x Hx. apply in_app_or in Hx.
      destruct Hx as [Hx|Hx]; [rewrite (Hsleep x Hx) | rewrite (proj2 (Hr x Hx))];
        reflexivity. }
  destruct (stdin w) as [event_data|f] eqn:Hs.
  - rewrite (main_trace_parsed w event_data Hs). apply Hrest.
    intros e He. apply in_app_or in He. destruct He as [He|He].
    + exact (handle_event_voice_plain w _ event_data e Hm Hstd He).
    + destruct (fst (fst (HookHandler.handle_event w (handler_of w) event_data)))
        as [|x]; [destruct He|].
      destruct x; cbn in He; intuition (subst; reflexivity).
  - rewrite (main_trace_fault w f Hs). apply Hrest.
    intros e He. destruct f; cbn in He; intuition (subst; reflexivity).
Qed.

End Default_mode.

(** ** Instances *)

Section Instances.

Import AudioManager HookHandler Main.

Lemma X2_witness : fst (_init_voice_players quiet_world) = [].
Proof.
  refine (proj2 (proj2 (X2_voice_registry quiet_world)) _).
  split; vm_compute; reflexivity.
Defined.

Lemma X3_witness :
  speak_text quiet_world (sample_manager "voice" false) (py "hello")
  = (false, [Log WARNING (py "No voice players available")]).
Proof.
  refine (proj2 (X3_speak_text_result quiet_world
                   (sample_manager "voice" false) (py "hello")) _).
  vm_compute. reflexivity.
Defined.

Lemma X4_witness :
  voice_players voices_manager = [MacOSSayVoicePlayer; EspeakVoicePlayer]
  /\ speak_text (voices_world false) voices_manager (py "hello")
     = (true,
        [Popen [AStr (py "say"); AStr (py "-v"); AStr (py "Kyoko");
                AStr (py "hello")];
         Popen [AStr (py "espeak"); AStr (py "-s"); AInt 200;
                AStr (py "-v"); AStr (py "ja"); AStr (py "hello")];
         Log DEBUG (py "Spoke text using espeak")])
  /\ speak_text (voices_world true) voices_manager (py "hello")
     = (true,
        [Popen [AStr (py "say"); AStr (py "-v"); AStr (py "Kyoko");
                AStr (py "hello")];
         Log DEBUG (py "Spoke text using macos_say")]).
Proof.
  split; [vm_compute; reflexivity|]. split.
  - refine (eq_trans
              (X4_speak_text_stops_at_first_success (voices_world false)
                 voices_manager (py "hello")
                 [MacOSSayVoicePlayer] EspeakVoicePlayer [] _ _ _) _);
      vm_compute; reflexivity.
  - refine (eq_trans
              (X4_speak_text_stops_at_first_success (voices_world true)
                 voices_manager (py "hello")
                 [] MacOSSayVoicePlayer [EspeakVoicePlayer] _ _ _) _);
      vm_compute; reflexivity.
Defined.

Lemma X6_witness :
  directly_inside (sound_dir (AudioManager.config mac_manager))
                  (py "/opt/hooks/sounds/beeps/complete.wav").
Proof.
  refine (X6_lookups_stay_in_sound_directory mac_world mac_manager
            (py "complete") _ _ _ _).
  - intros H. vm_compute in H. discriminate H.
  - unfold standard_players. vm_compute.
    repeat (constructor; [auto 6|]). constructor.
  - vm_compute. left. reflexivity.
Defined.

Lemma X7_witness :
  fst (fst (_find_sound_file quiet_world
              (snd (fst (_find_sound_file mac_world mac_manager (py "complete"))))
              (py "complete")))
  = Some (py "/opt/hooks/sounds/beeps/complete.mp3").
Proof.
  refine (f_equal (fun x => fst (fst x))
            (X7_second_lookup_is_cached mac_world quiet_world mac_manager
               (py "complete")
               (Some (py "/opt/hooks/sounds/beeps/complete.mp3")) _ _ _)).
  vm_compute. reflexivity.
Defined.

Lemma X8_witness :
  cache_ok (found (snd (fst (_find_sound_file mac_world mac_manager
                                              (py "complete"))))).
Proof.
  refine (proj1 (X8_file_cache_bounded mac_world mac_manager (py "complete") _)).
  vm_compute. split; [lia | constructor].
Defined.

Lemma X10_witness :
  find_match (JObj (<[py "session_id" := JStr (py "abc")]> Sample.stop))
  = find_match (JObj Sample.stop).
Proof.
  refine (proj1 (X10_other_keys_ignored Sample.stop (py "session_id")
                   (JStr (py "abc")) _ _ _));
    intros H; vm_compute in H; discriminate H.
Defined.

Lemma X11_witness :
  (Some (py "complete"), Some (py "Stop")) = (None, None)
  \/ exists p, In p all_rules
       /\ (Some (py "complete"), Some (py "Stop"))
          = (Some (sound p), Some (voice_key p))
       /\ truthy (Some (sound p)) = true
       /\ truthy (Some (voice_key p)) = true.
Proof.
  refine (X11_directive_all_or_nothing (JObj Sample.stop) _ _).
  vm_compute. reflexivity.
Defined.

Lemma X12_witness : raises (find_match Sample.numeric_event_name).
Proof.
  refine (proj2 (X12_when_find_match_raises
                   (list_to_map [(Keys.event, JInt 5)])) _).
  left. vm_compute. reflexivity.
Defined.

Lemma X13_witness :
  matches (Table.rule "Stop" "complete" "Stop" 100 "Task completed")
          (JStr (py "Stop" ++ py "Hook")) = Ok true.
Proof.
  refine (X13_match_ignores_what_follows _ (py "Stop") (py "Hook") _ _).
  - vm_compute. right. left. reflexivity.
  - vm_compute. reflexivity.
Defined.

Lemma X14_witness :
  matches (Table.rule "Stop" "complete" "Stop" 100 "Task completed")
          (JStr (py "STOP")) = Ok true
  /\ matches (Table.rule "Stop" "complete" "Stop" 100 "Task completed")
             (JStr (py "stop")) = Ok true.
Proof.
  refine ((fun H => conj (eq_trans (proj1 H) _) (eq_trans (proj2 H) _))
            (X14_match_ignores_ascii_case
               (Table.rule "Stop" "complete" "Stop" 100 "Task completed")
               (py "Stop") _)).
  - vm_compute. reflexivity.
  - vm_compute. reflexivity.
  - vm_compute. right. left. reflexivity.
Defined.

Lemma X15_witness :
  forallb is_record
    (snd (handle_event busy_world (sample_handler "quiet" false)
                       (JObj Sample.stop))) = true.
Proof.
  refine (proj2 (X15_unknown_mode_delivers_nothing busy_world
                   (sample_handler "quiet" false) (JObj Sample.stop) _)).
  vm_compute. reflexivity.
Defined.

Lemma X16_witness :
  handle_event busy_world (sample_handler "voice" false) (JObj Sample.stop)
  = (Ok tt, sample_handler "voice" false,
     _log_event busy_world (JObj Sample.stop)
     ++ speaking (py "Stop")
        :: spoken busy_world (sample_handler "voice" false) (py "Stop")).
Proof.
  refine (proj1 (X16_single_modes busy_world (sample_handler "voice" false)
                   (JObj Sample.stop) (py "complete") (py "Stop") _ _) _).
  - vm_compute. reflexivity.
  - vm_compute. reflexivity.
  - vm_compute. reflexivity.
Defined.

Lemma X17_witness :
  forallb (fun e => negb (is_audit e) && negb (is_delivery e)
                    && negb (is_sleep e)) (snd (main quiet_world)) = true.
Proof.
  refine (proj1 (proj2 (X17_unreadable_input_does_nothing quiet_world
                          BadJSON _))).
  vm_compute. reflexivity.
Defined.



Lemma X19_witness :
  forallb (fun e => negb (is_delivery e) && negb (is_sleep e))
          (snd (main mac_world)) = true.
Proof.
  refine (proj2 (X19_test_variable_makes_dry_run mac_world (py "TRUE") _ _)).
  - vm_compute. reflexivity.
  - vm_compute. reflexivity.
Defined.

Lemma X20_witness :
  mode (HookHandler.config (handler_of busy_world)) = py "voice".
Proof.
  refine (proj1 (X20_default_mode_looks_up_no_sound busy_world _)).
  vm_compute. reflexivity.
Defined.

Lemma X21_witness :
  fst (handle_event (with_audit_error busy_world (Some (py "disk full")))
                    (sample_handler "both" false) (JObj Sample.stop))
  = fst (handle_event busy_world (sample_handler "both" false)
                      (JObj Sample.stop)).
Proof.
  refine (proj1 (X21_audit_failure_is_harmless busy_world
                   (Some (py "disk full")) (sample_handler "both" false)
                   (JObj Sample.stop) _ _)).
  - unfold standard_players. vm_compute.
    repeat (constructor; [auto 6|]). constructor.
  - unfold standard_voices. vm_compute.
    repeat (constructor; [auto 6|]). constructor.
Defined.

End Instances.
